(** * money_master: the Plaid extractor (extractor.py)

    A shallow embedding of the reconciliation pipeline of [extractor.py]:
    [group_transactions_by_category], [build_account_details],
    [merge_transactions], [apply_transaction_categories],
    [save_results_to_csv] and the start-date computation of the driver.

    Python values are a small inductive type; a [dict] or [OrderedDict]
    with text keys is an association list in insertion order; the rows of
    the ledger are mutable objects, so they live in a store and the lists
    the functions pass around hold references to them. *)

From Stdlib Require Import ZArith QArith Lia Bool.
From Stdlib Require Import String Ascii DecimalString.
From stdpp Require Import base list.

Local Open Scope Z_scope.
Local Open Scope string_scope.
Local Open Scope list_scope.

(** ** Python values *)

Module Py.

(** [datetime.datetime], as openpyxl returns it for a date cell. *)
Record datetime := Datetime {
  year : Z; month : Z; day : Z;
  hour : Z; minute : Z; second : Z; microsecond : Z
}.

(** Numbers ([int] and finite [float]) are rationals: Python compares them
    by numeric value, and [True == 1]. *)
#[warnings="-register-all"]
Inductive value :=
| VNone
| VBool (b : bool)
| VNum (q : Q)
| VStr (s : string)
| VDate (d : datetime)
| VList (l : list value)
| VDict (d : list (string * value)).

(** A [dict] with text keys, in insertion order. *)
Definition dict := list (string * value).

Inductive exn :=
| KeyError (k : value)
| TypeError
| AttributeError
| IndexError
| AssertionError
| ValueError
| SystemError.   (* a reference to no object: cannot happen in Python *)

(** [bool(v)] *)
Definition truthy (v : value) : bool :=
  match v with
  | VNone => false
  | VBool b => b
  | VNum q => negb (Qeq_bool q 0)
  | VStr s => negb (String.eqb s "")
  | VDate _ => true
  | VList l => match l with [] => false | _ => true end
  | VDict d => match d with [] => false | _ => true end
  end.

Definition num_of (v : value) : option Q :=
  match v with
  | VBool b => Some (if b then 1%Q else 0%Q)
  | VNum q => Some q
  | _ => None
  end.

Definition datetime_fields (d : datetime) : list Z :=
  [year d; month d; day d; hour d; minute d; second d; microsecond d].

Fixpoint lex_compare (a b : list Z) : comparison :=
  match a, b with
  | [], [] => Eq
  | [], _ => Lt
  | _, [] => Gt
  | x :: a', y :: b' =>
      match Z.compare x y with
      | Eq => lex_compare a' b'
      | c => c
      end
  end.

Definition datetime_compare (d e : datetime) : comparison :=
  lex_compare (datetime_fields d) (datetime_fields e).

(** [a == b] for the values that are hashable; a list or a dict is only
    ever compared with a string in this program ([== '7550']), which is
    [False]. *)
Definition py_eq (a b : value) : bool :=
  match num_of a, num_of b with
  | Some x, Some y => Qeq_bool x y
  | _, _ =>
      match a, b with
      | VNone, VNone => true
      | VStr s, VStr t => String.eqb s t
      | VDate d, VDate e =>
          match datetime_compare d e with Eq => true | _ => false end
      | _, _ => false
      end
  end.

(** [hash(v)] raises [TypeError] for a list or a dict. *)
Definition hashable (v : value) : bool :=
  match v with
  | VList _ | VDict _ => false
  | _ => true
  end.

(** *** Dictionaries with text keys *)

Fixpoint lookup_key (k : string) (d : dict) : option value :=
  match d with
  | [] => None
  | (k', v) :: d' => if String.eqb k k' then Some v else lookup_key k d'
  end.

(** [d.get(k, default)] *)
Definition get_or (d : dict) (k : string) (default : value) : value :=
  match lookup_key k d with
  | Some v => v
  | None => default
  end.

(** [d.get(k)] *)
Definition get (d : dict) (k : string) : value := get_or d k VNone.

(** [d[k] = v]: an existing key keeps its position. *)
Fixpoint setitem (k : string) (v : value) (d : dict) : dict :=
  match d with
  | [] => [(k, v)]
  | (k', v') :: d' =>
      if String.eqb k k' then (k, v) :: d' else (k', v') :: setitem k v d'
  end.

(** [d.update(src)] *)
Definition update (d src : dict) : dict :=
  fold_left (fun acc kv => setitem (fst kv) (snd kv) acc) src d.

(** *** Dictionaries and sets keyed by arbitrary hashable values *)

Definition vmap (A : Type) := list (value * A).

Fixpoint vlookup {A} (k : value) (m : vmap A) : option A :=
  match m with
  | [] => None
  | (k', x) :: m' => if py_eq k k' then Some x else vlookup k m'
  end.

Fixpoint vset {A} (k : value) (x : A) (m : vmap A) : vmap A :=
  match m with
  | [] => [(k, x)]
  | (k', x') :: m' =>
      if py_eq k k' then (k', x) :: m' else (k', x') :: vset k x m'
  end.

(** [v in s] for a set [s], given as the list of its elements. *)
Definition vmem (v : value) (s : list value) : bool :=
  existsb (py_eq v) s.

End Py.
Export Py.

(** ** The store and the monad of the program

    The rows ([OrderedDict]s) are objects: the store holds them, a list of
    transactions holds their addresses.  The output file is the list of
    records written to it so far (the text encoding of a record is the csv
    module's and is not modelled). *)

Definition addr := nat.

Record world := World {
  objects : list dict;
  csv_out : list (list value)
}.

(** A computation ends with a value or an exception, and with the store
    and the file as it left them in either case. *)
Definition M (A : Type) : Type := world -> (exn + A) * world.

Definition ret {A} (x : A) : M A := fun w => (inr x, w).

Definition raise {A} (e : exn) : M A := fun w => (inl e, w).

Definition bind {A B} (m : M A) (f : A -> M B) : M B :=
  fun w => match m w with
           | (inl e, w') => (inl e, w')
           | (inr x, w') => f x w'
           end.

Declare Scope py_scope.
Delimit Scope py_scope with py.
Notation "x <- m ;; k" := (bind m (fun x => k))
  (at level 100, m at next level, right associativity) : py_scope.
Notation "m ;;; k" := (bind m (fun _ => k))
  (at level 100, right associativity) : py_scope.
Local Open Scope py_scope.

(** The body of a [for] loop that threads an accumulator. *)
Fixpoint for_each {A B} (body : B -> A -> M B) (l : list A) (acc : B) : M B :=
  match l with
  | [] => ret acc
  | x :: l' => acc' <- body acc x ;; for_each body l' acc'
  end.

(** Read the object behind a reference. *)
Definition deref (a : addr) : M dict :=
  fun w => match objects w !! a with
           | Some r => (inr r, w)
           | None => (inl SystemError, w)
           end.

(** Mutate the object behind a reference in place. *)
Definition assign (a : addr) (r : dict) : M unit :=
  fun w => match objects w !! a with
           | Some _ => (inr tt, World (<[a := r]> (objects w)) (csv_out w))
           | None => (inl SystemError, w)
           end.

(** A new object; its address is the next free one. *)
Definition alloc (r : dict) : M addr :=
  fun w => (inr (length (objects w)), World (objects w ++ [r]) (csv_out w)).

(** [d[k]] on a dict with text keys *)
Definition getitem (d : dict) (k : string) : M value :=
  match lookup_key k d with
  | Some v => ret v
  | None => raise (KeyError (VStr k))
  end.

(** [hash(v)], as a dict or set operation does it first *)
Definition hash_check (v : value) : M unit :=
  if hashable v then ret tt else raise TypeError.

(** [m.get(k)] on a dict keyed by values *)
Definition vget {A} (m : vmap A) (k : value) : M (option A) :=
  hash_check k ;;; ret (vlookup k m).

(** [m[k]] on a plain dict keyed by values *)
Definition vgetitem {A} (m : vmap A) (k : value) : M A :=
  o <- vget m k ;;
  match o with
  | Some x => ret x
  | None => raise (KeyError k)
  end.

(** [v.get(k, default)] where [v] is whatever the caller holds: only a
    dict has [get]. *)
Definition attr_get (v : value) (k : string) (default : value) : M value :=
  match v with
  | VDict d => ret (get_or d k default)
  | _ => raise AttributeError
  end.

(** ** Configuration

    [config.json] is not part of the sources: the two entries the code
    reads are parameters. *)

Record config := Config {
  BANK_NAME_MAPPING : dict;     (* a JSON object: mask -> display name *)
  FIELDNAMES : list string
}.

(** ** group_transactions_by_category *)

(** A [Counter]: keys in insertion order, with their counts. *)
Definition counter := vmap Z.

(** [defaultdict(Counter)] *)
Definition category_model := vmap counter.

(** [category_dict[description][category] += 1] *)
Definition count_up (category_dict : category_model) (description category : value)
  : M category_model :=
  hash_check description ;;;
  let c := default [] (vlookup description category_dict) in
  hash_check category ;;;
  let n := default 0 (vlookup category c) in
  ret (vset description (vset category (n + 1) c) category_dict).

(** The body of the loop. *)
Definition count_row (category_dict : category_model) (a : addr)
  : M category_model :=
  transaction <- deref a ;;
  category <- getitem transaction "category" ;;
  if truthy category then
    description <- getitem transaction "description" ;;
    count_up category_dict description category
  else ret category_dict.

Definition group_transactions_by_category (transactions : list addr)
  : M category_model :=
  for_each count_row transactions [].

(** [Counter.most_common()]: [sorted(items, key=count, reverse=True)], a
    stable sort, so equal counts stay in insertion order. *)
Fixpoint insert_by_count (x : value * Z) (l : list (value * Z)) : list (value * Z) :=
  match l with
  | [] => [x]
  | y :: l' => if (snd y <? snd x)%Z then x :: l else y :: insert_by_count x l'
  end.

Definition most_common (c : counter) : list (value * Z) :=
  fold_left (fun acc x => insert_by_count x acc) c [].

(** ** build_account_details *)

(** [CONFIG["BANK_NAME_MAPPING"].get(mask)]: the keys of a JSON object are
    strings. *)
Definition bank_name (cfg : config) (mask : value) : M value :=
  hash_check mask ;;;
  ret match mask with
      | VStr k => get (BANK_NAME_MAPPING cfg) k
      | _ => VNone
      end.

(** [account_dict[account_id][k] = v] *)
Definition set_field (account_dict : vmap dict) (account_id : value)
    (k : string) (v : value) : vmap dict :=
  vset account_id (setitem k v (default [] (vlookup account_id account_dict)))
       account_dict.

(** The body of the loop. *)
Definition add_account (cfg : config) (account_dict : vmap dict) (account : dict)
  : M (vmap dict) :=
  let account_id := get account "account_id" in
  hash_check account_id ;;;
  let account_dict := vset account_id [] account_dict in
  let account_dict :=
    set_field account_dict account_id "bank_account_number" (get account "mask") in
  name <- bank_name cfg (get account "mask") ;;
  let account_dict := set_field account_dict account_id "account_name" name in
  let account_dict :=
    set_field account_dict account_id "institution_type" (get account "type") in
  let account_dict :=
    set_field account_dict account_id "account_type" (get account "type") in
  let account_dict :=
    set_field account_dict account_id "account_subtype" (get account "subtype") in
  ret account_dict.

Definition build_account_details (cfg : config) (account_response : list dict)
  : M (vmap dict) :=
  for_each (add_account cfg) account_response [].

(** ** merge_transactions *)

Fixpoint strings_of (l : list value) : option (list string) :=
  match l with
  | [] => Some []
  | VStr s :: l' => option_map (cons s) (strings_of l')
  | _ => None
  end.

Definition chars (s : string) : list string :=
  map (fun c => String c EmptyString) (list_ascii_of_string s).

(** [sep.join(v)]: [v] is iterated; every item must be a string. *)
Definition str_join (sep : string) (v : value) : M string :=
  match v with
  | VList l =>
      match strings_of l with
      | Some parts => ret (String.concat sep parts)
      | None => raise TypeError
      end
  | VStr s => ret (String.concat sep (chars s))
  | VDict d => ret (String.concat sep (map fst d))
  | _ => raise TypeError
  end.

(** [{row.get('transaction_id') for row in existing_transactions}]: one
    row of the comprehension, then the whole set. *)
Definition add_id (ids : list value) (a : addr) : M (list value) :=
  row <- deref a ;;
  hash_check (get row "transaction_id") ;;;
  ret (ids ++ [get row "transaction_id"]).

Definition transaction_ids (existing_transactions : list addr) : M (list value) :=
  for_each add_id existing_transactions [].

(** The body of the loop: [merged_transactions] is the list built so far. *)
Definition merge_one (existing_transaction_ids : list value)
    (account_data : vmap dict) (merged_transactions : list addr)
    (transaction : dict) : M (list addr) :=
  hash_check (get transaction "transaction_id") ;;;
  if vmem (get transaction "transaction_id") existing_transaction_ids then
    ret merged_transactions
  else
    account <- vgetitem account_data (get transaction "account_id") ;;
    let transaction_dict := update [] account in
    if py_eq (get transaction_dict "bank_account_number") (VStr "7550") then
      ret merged_transactions
    else
      let transaction_dict := setitem "date" (get transaction "date") transaction_dict in
      let transaction_dict :=
        setitem "description" (get transaction "name") transaction_dict in
      let transaction_dict := setitem "amount" (get transaction "amount") transaction_dict in
      let category := get transaction "category" in
      plaid_category <- str_join ", " (if truthy category then category else VList []) ;;
      let transaction_dict :=
        setitem "plaid_category" (VStr plaid_category) transaction_dict in
      let transaction_dict :=
        setitem "transaction_type" (get transaction "transaction_type") transaction_dict in
      address <- attr_get (get_or transaction "location" (VDict [])) "address" (VDict []) ;;
      let transaction_dict := setitem "address" address transaction_dict in
      city <- attr_get (get_or transaction "location" (VDict [])) "city" VNone ;;
      let transaction_dict := setitem "city" city transaction_dict in
      state <- attr_get (get_or transaction "location" (VDict [])) "state" VNone ;;
      let transaction_dict := setitem "state" state transaction_dict in
      zip <- attr_get (get_or transaction "location" (VDict [])) "zip" VNone ;;
      let transaction_dict := setitem "zip" zip transaction_dict in
      country <- attr_get (get_or transaction "location" (VDict [])) "country" VNone ;;
      let transaction_dict := setitem "country" country transaction_dict in
      let transaction_dict :=
        setitem "pending" (get transaction "pending") transaction_dict in
      let transaction_dict :=
        setitem "transaction_id" (get transaction "transaction_id") transaction_dict in
      a <- alloc transaction_dict ;;
      ret (merged_transactions ++ [a]).

Definition merge_transactions (existing_transactions : list addr)
    (new_transactions : list dict) (account_data : vmap dict) : M (list addr) :=
  existing_transaction_ids <- transaction_ids existing_transactions ;;
  let merged_transactions := existing_transactions in
  for_each (merge_one existing_transaction_ids account_data)
           new_transactions merged_transactions.

(** ** apply_transaction_categories *)

(** [category_data.get(description).most_common()[0][0] if
    category_data.get(description) else None]: the condition is evaluated
    first, and a [Counter] is true when it has an entry. *)
Definition inferred_category (category_data : category_model) (description : value)
  : M value :=
  cond <- vget category_data description ;;
  match cond with
  | Some (_ :: _) =>
      found <- vget category_data description ;;
      match most_common (default [] found) with
      | (category, _) :: _ => ret category
      | [] => raise IndexError
      end
  | _ => ret VNone
  end.

Definition apply_one (category_data : category_model) (a : addr) : M unit :=
  transaction <- deref a ;;
  if negb (truthy (get transaction "category")) then
    description <- getitem transaction "description" ;;
    category <- inferred_category category_data description ;;
    assign a (setitem "category" category transaction)
  else ret tt.

Definition apply_transaction_categories (transactions : list addr)
    (category_data : category_model) : M (list addr) :=
  for_each (fun _ a => apply_one category_data a) transactions tt ;;;
  ret transactions.

(** ** save_results_to_csv *)

(** [open(csv_filename, 'w')] truncates the file. *)
Definition open_w : M unit :=
  fun w => (inr tt, World (objects w) []).

Definition write_record (r : list value) : M unit :=
  fun w => (inr tt, World (objects w) (csv_out w ++ [r])).

(** [DictWriter._dict_to_list]: a key outside [fieldnames] raises, a
    missing one is written as the empty string. *)
Definition dict_to_list (fieldnames : list string) (rowdict : dict) : M (list value) :=
  if forallb (fun k => existsb (String.eqb k) fieldnames) (map fst rowdict) then
    ret (map (fun k => get_or rowdict k (VStr "")) fieldnames)
  else raise ValueError.

Definition save_results_to_csv (cfg : config) (transactions : list addr) : M unit :=
  first <- match transactions with
           | [] => raise IndexError
           | a :: _ => deref a
           end ;;
  if negb (length first =? length (FIELDNAMES cfg))%nat then raise AssertionError
  else
    open_w ;;;
    write_record (map VStr (FIELDNAMES cfg)) ;;;
    for_each (fun _ a =>
      rowdict <- deref a ;;
      r <- dict_to_list (FIELDNAMES cfg) rowdict ;;
      write_record r) transactions tt.

(** ** The driver *)

(** [a > b], where Python defines it for the cells of a worksheet. *)
Definition py_gt (a b : value) : M bool :=
  match num_of a, num_of b with
  | Some x, Some y => ret (negb (Qle_bool x y))
  | _, _ =>
      match a, b with
      | VStr s, VStr t =>
          ret match String.compare s t with Gt => true | _ => false end
      | VDate d, VDate e =>
          ret match datetime_compare d e with Gt => true | _ => false end
      | _, _ => raise TypeError
      end
  end.

(** [max(existing_transactions, key=lambda x: x['date'])]: the first of
    the greatest; [max_step] is one comparison of its loop. *)
Definition max_step (best : addr * value) (a : addr) : M (addr * value) :=
  row <- deref a ;;
  key <- getitem row "date" ;;
  gt <- py_gt key (snd best) ;;
  ret (if gt then (a, key) else best).

Definition max_by_date (existing_transactions : list addr) : M addr :=
  match existing_transactions with
  | [] => raise ValueError
  | a :: rest =>
      row <- deref a ;;
      key <- getitem row "date" ;;
      best <- for_each max_step rest (a, key) ;;
      ret (fst best)
  end.

Definition digits (z : Z) : string :=
  NilEmpty.string_of_uint (N.to_uint (Z.to_N z)).

Fixpoint zeros (n : nat) : string :=
  match n with
  | O => ""
  | S n' => String "0" (zeros n')
  end.

(** A number in at least [n] digits, as [%Y], [%m] and [%d] print it for
    the dates of a worksheet. *)
Definition pad (n : nat) (z : Z) : string :=
  let s := digits z in String.append (zeros (n - String.length s)) s.

(** [d.strftime("%Y-%m-%d")] *)
Definition strftime_ymd (v : value) : M string :=
  match v with
  | VDate d =>
      ret (String.concat "-" [pad 4 (year d); pad 2 (month d); pad 2 (day d)])
  | _ => raise AttributeError
  end.

(** The [start_date] of the driver. *)
Definition start_date (existing_transactions : list addr) : M string :=
  a <- max_by_date existing_transactions ;;
  row <- deref a ;;
  d <- getitem row "date" ;;
  strftime_ymd d.

Section Driver.

(** The fetch adapter: from a start date to the transactions and the
    accounts of the response. *)
Variable query_plaid_transactions : string -> list dict * list dict.
Variable cfg : config.

Definition main (existing_transactions : list addr) : M unit :=
  category_data <- group_transactions_by_category existing_transactions ;;
  start <- start_date existing_transactions ;;
  let plaid_transactions_response := query_plaid_transactions start in
  let plaid_transactions := fst plaid_transactions_response in
  let plaid_accounts := snd plaid_transactions_response in
  account_data <- build_account_details cfg plaid_accounts ;;
  merged_transactions <-
    merge_transactions existing_transactions plaid_transactions account_data ;;
  merged_transactions <-
    apply_transaction_categories merged_transactions category_data ;;
  save_results_to_csv cfg merged_transactions.

End Driver.

(** ** Running the program on small inputs *)

Definition run {A} (m : M A) (objs : list dict) : (exn + A) * world :=
  m (World objs []).

Definition coffee (cat id : string) : dict :=
  [("date", VDate (Datetime 2020 1 15 0 0 0 0));
   ("description", VStr "COFFEE SHOP");
   ("transaction_id", VStr id);
   ("category", if String.eqb cat "" then VNone else VStr cat)].

Definition acct1 : dict :=
  [("account_id", VStr "acc1"); ("mask", VStr "1234");
   ("type", VStr "depository"); ("subtype", VStr "checking")].

Definition cfg0 : config :=
  Config [("1234", VStr "Checking")] ["a"; "b"].

Definition tx (id acct name : string) : dict :=
  [("transaction_id", VStr id); ("account_id", VStr acct); ("name", VStr name);
   ("amount", VNum (25 # 2)); ("date", VStr "2020-01-16");
   ("category", VList [VStr "Food and Drink"; VStr "Coffee"]);
   ("pending", VBool false)].

(** ** Facts about Python equality *)

Lemma lex_compare_eq (a b : list Z) : lex_compare a b = Eq <-> a = b.
Proof.
  revert b; induction a as [|x a IH]; intros [|y b]; simpl; try (split; congruence).
  destruct (Z.compare_spec x y) as [->|Hlt|Hgt].
  - rewrite IH. split; congruence.
  - split; [discriminate | intros [= -> _]; lia].
  - split; [discriminate | intros [= -> _]; lia].
Qed.

Lemma py_eq_hashable_l (a b : value) : py_eq a b = true -> hashable a = true.
Proof. destruct a, b; cbv [py_eq num_of hashable]; congruence. Qed.

Lemma py_eq_refl (a : value) : hashable a = true -> py_eq a a = true.
Proof.
  destruct a; cbv [py_eq num_of hashable]; try congruence; intros _.
  - apply Qeq_bool_refl.
  - apply Qeq_bool_refl.
  - apply String.eqb_refl.
  - unfold datetime_compare.
    now rewrite (proj2 (lex_compare_eq _ _) eq_refl).
Qed.

Lemma datetime_eq_sym (d e : datetime) :
  datetime_compare d e = Eq -> datetime_compare e d = Eq.
Proof. unfold datetime_compare. rewrite !lex_compare_eq. congruence. Qed.

Lemma datetime_eq_trans (d e f : datetime) :
  datetime_compare d e = Eq -> datetime_compare e f = Eq ->
  datetime_compare d f = Eq.
Proof. unfold datetime_compare. rewrite !lex_compare_eq. congruence. Qed.

Lemma py_eq_sym (a b : value) : py_eq a b = true -> py_eq b a = true.
Proof.
  unfold py_eq.
  destruct (num_of a) as [x|] eqn:Ha, (num_of b) as [y|] eqn:Hb.
  - apply Qeq_bool_sym.
  - destruct a, b; simpl in *; congruence.
  - destruct a, b; simpl in *; congruence.
  - destruct a, b; simpl in *; try congruence.
    + rewrite String.eqb_sym. congruence.
    + destruct (datetime_compare d d0) eqn:E; try discriminate.
      now rewrite (datetime_eq_sym _ _ E).
Qed.

Lemma py_eq_trans (a b c : value) :
  py_eq a b = true -> py_eq b c = true -> py_eq a c = true.
Proof.
  unfold py_eq.
  destruct (num_of a) as [x|] eqn:Ha, (num_of b) as [y|] eqn:Hb,
           (num_of c) as [z|] eqn:Hc;
    try (destruct a, b, c; simpl in *; congruence).
  - apply Qeq_bool_trans.
  - destruct a, b, c; simpl in *; try congruence.
    + intros H1 H2. apply String.eqb_eq in H1, H2. subst. apply String.eqb_refl.
    + destruct (datetime_compare d d0) eqn:E1; try discriminate.
      destruct (datetime_compare d0 d1) eqn:E2; try discriminate.
      now rewrite (datetime_eq_trans _ _ _ E1 E2).
Qed.

Lemma vmem_true (v : value) (s : list value) :
  vmem v s = true <-> exists u, In u s /\ py_eq v u = true.
Proof. unfold vmem. apply existsb_exists. Qed.

Lemma vmem_app (v : value) (s1 s2 : list value) :
  vmem v (s1 ++ s2) = vmem v s1 || vmem v s2.
Proof. unfold vmem. apply existsb_app. Qed.

(** ** Facts about dictionaries *)

Lemma lookup_setitem_eq (k : string) (v : value) (d : dict) :
  lookup_key k (setitem k v d) = Some v.
Proof.
  induction d as [|[k' v'] d IH]; simpl.
  - now rewrite String.eqb_refl.
  - destruct (String.eqb k k') eqn:E; simpl.
    + now rewrite String.eqb_refl.
    + now rewrite E.
Qed.

Lemma lookup_setitem_ne (k k' : string) (v : value) (d : dict) :
  k <> k' -> lookup_key k' (setitem k v d) = lookup_key k' d.
Proof.
  intros Hne. induction d as [|[k0 v0] d IH]; simpl.
  - destruct (String.eqb k' k) eqn:E; [apply String.eqb_eq in E; congruence | easy].
  - destruct (String.eqb k k0) eqn:E; simpl.
    + apply String.eqb_eq in E. subst k0.
      destruct (String.eqb k' k) eqn:E'; [apply String.eqb_eq in E'; congruence | easy].
    + now rewrite IH.
Qed.

Lemma get_setitem_eq (k : string) (v : value) (d : dict) :
  get (setitem k v d) k = v.
Proof. unfold get, get_or. now rewrite lookup_setitem_eq. Qed.

Lemma get_setitem_ne (k k' : string) (v : value) (d : dict) :
  k <> k' -> get (setitem k v d) k' = get d k'.
Proof. intros. unfold get, get_or. now rewrite lookup_setitem_ne. Qed.

(** ** Loops *)

Lemma for_each_app {A B} (body : B -> A -> M B) (l1 l2 : list A) (acc : B) (w : world) :
  for_each body (l1 ++ l2) acc w =
  match for_each body l1 acc w with
  | (inl e, w') => (inl e, w')
  | (inr acc', w') => for_each body l2 acc' w'
  end.
Proof.
  revert acc w. induction l1 as [|x l1 IH]; intros acc w; simpl; [reflexivity|].
  unfold bind. destruct (body acc x w) as [[e|acc'] w']; [reflexivity | apply IH].
Qed.

(** ** The identifiers of the ledger *)

(** [id] is the identifier of the row behind [a]. *)
Definition id_at (w : world) (a : addr) (id : value) : Prop :=
  exists r, objects w !! a = Some r /\ id = get r "transaction_id"
            /\ hashable id = true.

Lemma bind_run {A B} (m : M A) (f : A -> M B) (w : world) :
  bind m f w = match m w with
               | (inl e, w') => (inl e, w')
               | (inr x, w') => f x w'
               end.
Proof. reflexivity. Qed.

Lemma add_id_run (ids : list value) (a : addr) (w : world) :
  add_id ids a w =
  match objects w !! a with
  | None => (inl SystemError, w)
  | Some r => if hashable (get r "transaction_id")
              then (inr (ids ++ [get r "transaction_id"]), w)
              else (inl TypeError, w)
  end.
Proof.
  unfold add_id, bind, deref, hash_check.
  destruct (objects w !! a) as [r|]; [|reflexivity].
  destruct (hashable (get r "transaction_id")); reflexivity.
Qed.

Lemma transaction_ids_loop (l : list addr) (acc ids : list value) (w w' : world) :
  for_each add_id l acc w = (inr ids, w')
  <-> w' = w /\ exists new, ids = acc ++ new /\ Forall2 (id_at w) l new.
Proof.
  revert acc. induction l as [|a l IH]; intros acc; cbn [for_each].
  - unfold ret. split.
    + intros [= <- <-]. split; [reflexivity|]. exists []. now rewrite app_nil_r.
    + intros [-> (new & -> & HF)]. inversion HF. now rewrite app_nil_r.
  - rewrite bind_run, add_id_run.
    destruct (objects w !! a) as [r|] eqn:Hr.
    + destruct (hashable (get r "transaction_id")) eqn:Hh.
      * rewrite IH. split.
        -- intros [-> (new & -> & HF)]. split; [reflexivity|].
           exists (get r "transaction_id" :: new). rewrite <- app_assoc. split; [reflexivity|].
           constructor; [|assumption]. exists r. auto.
        -- intros [-> (new & -> & HF)]. split; [reflexivity|].
           inversion HF as [|? id ? new' (r' & Hr' & -> & _) HF']; subst.
           rewrite Hr in Hr'. injection Hr' as <-.
           exists new'. rewrite <- app_assoc. auto.
      * split; [discriminate|].
        intros [-> (new & -> & HF)].
        inversion HF as [|? id ? new' (r' & Hr' & -> & Hh') HF']; subst.
        rewrite Hr in Hr'. injection Hr' as <-. congruence.
    + split; [discriminate|].
      intros [-> (new & -> & HF)].
      inversion HF as [|? id ? new' (r' & Hr' & _) HF']; subst. congruence.
Qed.

Lemma transaction_ids_run (existing : list addr) (ids : list value) (w w' : world) :
  transaction_ids existing w = (inr ids, w')
  <-> w' = w /\ Forall2 (id_at w) existing ids.
Proof.
  unfold transaction_ids. rewrite transaction_ids_loop. simpl.
  split.
  - intros [-> (new & -> & HF)]. auto.
  - intros [-> HF]. eauto.
Qed.

(** ** One step of the merge *)

(** What the loop body does with one fetched transaction, whatever the
    list built so far: an error, a skip ([None]) or the new row. *)
Definition accepted_row (ids : list value) (account_data : vmap dict)
    (transaction : dict) : exn + option dict :=
  match merge_one ids account_data [] transaction (World [] []) with
  | (inl e, _) => inl e
  | (inr _, w) => inr (objects w !! 0%nat)
  end.

(** The case analysis of the loop body, in the order of the code; [fin]
    closes the branches that leave the body early. *)
Tactic Notation "merge_cases" constr(t) constr(ids) constr(account_data)
    "by" tactic3(fin) :=
  cbv [accepted_row merge_one bind hash_check vgetitem vget ret raise alloc
       str_join attr_get objects csv_out];
  destruct (hashable (get t "transaction_id")) eqn:Htid; [|solve [fin]];
  destruct (vmem (get t "transaction_id") ids) eqn:Hmem; [solve [fin]|];
  destruct (hashable (get t "account_id")) eqn:Hacc; [|solve [fin]];
  destruct (vlookup (get t "account_id") account_data) as [account|] eqn:Hlook;
    [|solve [fin]];
  destruct (py_eq (get (update [] account) "bank_account_number") (VStr "7550"))
    eqn:Hmask; [solve [fin]|];
  destruct (if truthy (get t "category") then get t "category" else VList [])
    as [| | | | |cats|catd] eqn:Hcat; try solve [fin];
  [|destruct (strings_of cats) as [parts|] eqn:Hparts; [|solve [fin]] |];
  (destruct (get_or t "location" (VDict [])) as [| | | | | |loc] eqn:Hloc;
   try solve [fin]).

Lemma merge_one_run (ids : list value) (account_data : vmap dict)
    (merged : list addr) (t : dict) (w : world) :
  merge_one ids account_data merged t w =
  match accepted_row ids account_data t with
  | inl e => (inl e, w)
  | inr None => (inr merged, w)
  | inr (Some r) =>
      (inr (merged ++ [length (objects w)]), World (objects w ++ [r]) (csv_out w))
  end.
Proof. merge_cases t ids account_data by reflexivity; reflexivity. Qed.

(** The shape of an accepted row. *)
Definition normalized (t account : dict) (plaid_category : string)
    (address city state zip country : value) : dict :=
  setitem "transaction_id" (get t "transaction_id")
   (setitem "pending" (get t "pending")
    (setitem "country" country
     (setitem "zip" zip
      (setitem "state" state
       (setitem "city" city
        (setitem "address" address
         (setitem "transaction_type" (get t "transaction_type")
          (setitem "plaid_category" (VStr plaid_category)
           (setitem "amount" (get t "amount")
            (setitem "description" (get t "name")
             (setitem "date" (get t "date") (update [] account)))))))))))).

(** The location fields of a fetched transaction, as the body reads
    them. *)
Definition location_of (t : dict) (k : string) (default : value) : value :=
  match get_or t "location" (VDict []) with
  | VDict d => get_or d k default
  | _ => VNone
  end.

Lemma accepted_row_Some (ids : list value) (account_data : vmap dict) (t r : dict) :
  accepted_row ids account_data t = inr (Some r) ->
  hashable (get t "transaction_id") = true /\
  vmem (get t "transaction_id") ids = false /\
  exists account plaid_category,
    vlookup (get t "account_id") account_data = Some account /\
    py_eq (get (update [] account) "bank_account_number") (VStr "7550") = false /\
    r = normalized t account plaid_category
          (location_of t "address" (VDict [])) (location_of t "city" VNone)
          (location_of t "state" VNone) (location_of t "zip" VNone)
          (location_of t "country" VNone).
Proof.
  unfold location_of.
  merge_cases t ids account_data by discriminate;
    intros [= <-]; (split; [reflexivity|]); (split; [reflexivity|]);
    eexists _, _; (split; [reflexivity|]); (split; [eassumption|]); reflexivity.
Qed.

Lemma accepted_row_skip (ids : list value) (account_data : vmap dict) (t : dict) :
  vmem (get t "transaction_id") ids = true ->
  accepted_row ids account_data t = inr None.
Proof.
  intros Hin.
  assert (Hh : hashable (get t "transaction_id") = true).
  { apply vmem_true in Hin as (u & _ & Hu). eapply py_eq_hashable_l, Hu. }
  cbv [accepted_row merge_one bind hash_check ret].
  now rewrite Hh, Hin.
Qed.

(** A transaction that was skipped stays skipped when the set of known
    identifiers grows. *)
Lemma accepted_row_None_mono (ids ids' : list value) (account_data : vmap dict)
    (t : dict) :
  (forall v, vmem v ids = true -> vmem v ids' = true) ->
  accepted_row ids account_data t = inr None ->
  accepted_row ids' account_data t = inr None.
Proof.
  intros Hsub H.
  destruct (vmem (get t "transaction_id") ids') eqn:Hmem';
    [now apply accepted_row_skip|].
  revert H.
  cbv [accepted_row merge_one bind hash_check vgetitem vget ret raise alloc
       str_join attr_get objects csv_out].
  rewrite Hmem'.
  destruct (hashable (get t "transaction_id")) eqn:Htid; [|discriminate].
  destruct (vmem (get t "transaction_id") ids) eqn:Hmem.
  - apply Hsub in Hmem. congruence.
  - auto.
Qed.

(** A transaction whose account is unknown. *)
Lemma accepted_row_unknown_account (ids : list value) (account_data : vmap dict)
    (t : dict) :
  hashable (get t "transaction_id") = true ->
  vmem (get t "transaction_id") ids = false ->
  hashable (get t "account_id") = true ->
  vlookup (get t "account_id") account_data = None ->
  accepted_row ids account_data t = inl (KeyError (get t "account_id")).
Proof.
  intros H1 H2 H3 H4.
  cbv [accepted_row merge_one bind hash_check vgetitem vget ret raise].
  now rewrite H1, H2, H3, H4.
Qed.

(** ** The loop of the merge *)

Definition outcome_of (ids : list value) (account_data : vmap dict)
    (t : dict) (o : option dict) : Prop :=
  accepted_row ids account_data t = inr o.

Lemma world_eta (w : world) : World (objects w) (csv_out w) = w.
Proof. now destruct w. Qed.

Lemma merge_loop_run (ids : list value) (account_data : vmap dict)
    (new : list dict) (merged merged' : list addr) (w w' : world) :
  for_each (merge_one ids account_data) new merged w = (inr merged', w')
  <-> exists outs,
        Forall2 (outcome_of ids account_data) new outs /\
        merged' = merged ++ seq (length (objects w)) (length (omap id outs)) /\
        w' = World (objects w ++ omap id outs) (csv_out w).
Proof.
  revert merged w. induction new as [|t new IH]; intros merged w; cbn [for_each].
  - unfold ret. split.
    + intros [= <- <-]. exists []. split; [constructor|]. simpl.
      now rewrite !app_nil_r, world_eta.
    + intros (outs & HF & -> & ->). inversion HF; subst. simpl.
      now rewrite !app_nil_r, world_eta.
  - rewrite bind_run, merge_one_run.
    destruct (accepted_row ids account_data t) as [e|[r|]] eqn:Hrow.
    + split; [discriminate|].
      intros (outs & HF & _). inversion HF as [|? o ? outs' Ho HF']; subst.
      unfold outcome_of in Ho. congruence.
    + rewrite IH. cbn [objects csv_out]. split.
      * intros (outs & HF & -> & ->). exists (Some r :: outs).
        split; [now constructor|]. simpl.
        rewrite length_app, <- !app_assoc. simpl.
        now rewrite Nat.add_1_r.
      * intros (outs & HF & -> & ->).
        inversion HF as [|? o ? outs' Ho HF']; subst.
        unfold outcome_of in Ho. rewrite Hrow in Ho. injection Ho as <-.
        exists outs'. split; [assumption|]. simpl.
        rewrite length_app, <- !app_assoc. simpl.
        now rewrite Nat.add_1_r.
    + rewrite IH. split.
      * intros (outs & HF & -> & ->). exists (None :: outs).
        split; [now constructor|]. simpl. auto.
      * intros (outs & HF & -> & ->).
        inversion HF as [|? o ? outs' Ho HF']; subst.
        unfold outcome_of in Ho. rewrite Hrow in Ho. injection Ho as <-.
        exists outs'. split; [assumption|]. simpl. auto.
Qed.

Lemma merge_transactions_run (existing : list addr) (new : list dict)
    (account_data : vmap dict) (merged : list addr) (w w' : world) :
  merge_transactions existing new account_data w = (inr merged, w')
  <-> exists ids outs,
        Forall2 (id_at w) existing ids /\
        Forall2 (outcome_of ids account_data) new outs /\
        merged = existing ++ seq (length (objects w)) (length (omap id outs)) /\
        w' = World (objects w ++ omap id outs) (csv_out w).
Proof.
  unfold merge_transactions. rewrite bind_run.
  destruct (transaction_ids existing w) as [[e|ids] w1] eqn:Hids.
  - split; [discriminate|].
    intros (ids & outs & Hi & _).
    assert (H : transaction_ids existing w = (inr ids, w))
      by (apply transaction_ids_run; auto).
    congruence.
  - apply transaction_ids_run in Hids as [-> Hi].
    rewrite merge_loop_run. split.
    + intros (outs & HF & -> & ->). eauto 10.
    + intros (ids' & outs & Hi' & HF & -> & ->).
      assert (ids' = ids) as ->.
      { assert (H1 : transaction_ids existing w = (inr ids, w))
          by (apply transaction_ids_run; auto).
        assert (H2 : transaction_ids existing w = (inr ids', w))
          by (apply transaction_ids_run; auto).
        congruence. }
      eauto.
Qed.

(** ** Rows and their identifiers *)

(** The row behind [a] carries the identifier [id]. *)
Definition has_id (w : world) (id : value) (a : addr) : bool :=
  match objects w !! a with
  | Some r => py_eq id (get r "transaction_id")
  | None => false
  end.

(** How many rows of [l] carry the identifier [id]. *)
Fixpoint count_id (w : world) (id : value) (l : list addr) : nat :=
  match l with
  | [] => O
  | a :: l' => ((if has_id w id a then 1 else 0) + count_id w id l')%nat
  end.

(** The rows a merge added: what follows the ledger in the merged list. *)
Definition added (existing merged : list addr) : list addr :=
  drop (length existing) merged.

(** The identifiers of a list of rows of the store. *)
Definition ids_of (w : world) (l : list addr) : list value :=
  omap (fun a => option_map (fun r => get r "transaction_id") (objects w !! a)) l.

(** No two identifiers of the list are equal. *)
Fixpoint distinct_ids (l : list value) : bool :=
  match l with
  | [] => true
  | x :: l' => negb (vmem x l') && distinct_ids l'
  end.

Lemma count_id_app (w : world) (id : value) (l1 l2 : list addr) :
  count_id w id (l1 ++ l2) = (count_id w id l1 + count_id w id l2)%nat.
Proof. induction l1 as [|a l1 IH]; simpl; [reflexivity | rewrite IH; lia]. Qed.

Lemma get_normalized_id (t account : dict) (pc : string) (a c s z k : value) :
  get (normalized t account pc a c s z k) "transaction_id" = get t "transaction_id".
Proof. unfold normalized. apply get_setitem_eq. Qed.

Lemma accepted_row_id (ids : list value) (account_data : vmap dict) (t r : dict) :
  accepted_row ids account_data t = inr (Some r) ->
  get r "transaction_id" = get t "transaction_id" /\
  hashable (get t "transaction_id") = true /\
  vmem (get t "transaction_id") ids = false.
Proof.
  intros H. apply accepted_row_Some in H as (Hh & Hm & acc & pc & _ & _ & ->).
  now rewrite get_normalized_id.
Qed.

Lemma outcomes_rows (ids : list value) (account_data : vmap dict)
    (new : list dict) (outs : list (option dict)) (r : dict) :
  Forall2 (outcome_of ids account_data) new outs ->
  In r (omap id outs) ->
  exists t, In t new /\ accepted_row ids account_data t = inr (Some r).
Proof.
  induction 1 as [|t o new outs Ho HF IH]; simpl; [tauto|].
  destruct o as [r'|]; simpl.
  - intros [<-|Hin]; [exists t; auto|].
    destruct (IH Hin) as (t' & Ht' & Hr). eauto.
  - intros Hin. destruct (IH Hin) as (t' & Ht' & Hr). eauto.
Qed.

Lemma lookup_seq_app (objs rows : list dict) (i : nat) :
  (objs ++ rows) !! (length objs + i)%nat = rows !! i.
Proof. rewrite lookup_app_r by lia. f_equal. lia. Qed.

Lemma In_seq_rows (objs rows : list dict) (a : addr) :
  In a (seq (length objs) (length rows)) ->
  exists r, (objs ++ rows) !! a = Some r /\ In r rows.
Proof.
  rewrite in_seq. intros [H1 H2].
  destruct (rows !! (a - length objs)%nat) as [r|] eqn:Hr.
  - exists r. split.
    + replace a with (length objs + (a - length objs))%nat at 1 by lia.
      now rewrite lookup_seq_app.
    + apply list_elem_of_In. eapply list_elem_of_lookup_2, Hr.
  - apply lookup_ge_None in Hr. lia.
Qed.

Lemma added_app (existing news : list addr) :
  added existing (existing ++ news) = news.
Proof. unfold added. now rewrite drop_app_length. Qed.

(** ** The identifiers the merge knows *)

Lemma id_at_In (w : world) (existing : list addr) (ids : list value)
    (a : addr) (r : dict) :
  Forall2 (id_at w) existing ids ->
  In a existing -> objects w !! a = Some r ->
  In (get r "transaction_id") ids.
Proof.
  induction 1 as [|a' id existing ids (r' & Hr' & -> & _) HF IH]; simpl; [tauto|].
  intros [->|Hin] Hr.
  - left. congruence.
  - right. auto.
Qed.

Lemma In_id_at (w : world) (existing : list addr) (ids : list value) (id : value) :
  Forall2 (id_at w) existing ids ->
  In id ids ->
  exists a r, In a existing /\ objects w !! a = Some r /\ id = get r "transaction_id".
Proof.
  induction 1 as [|a' id' existing ids (r' & Hr' & -> & _) HF IH]; simpl; [tauto|].
  intros [<-|Hin].
  - exists a', r'. auto.
  - destruct (IH Hin) as (a & r & Ha & Hr & ->). exists a, r. auto.
Qed.

Lemma known_id_vmem (w : world) (existing : list addr) (ids : list value)
    (id : value) (a : addr) (r : dict) :
  Forall2 (id_at w) existing ids ->
  In a existing -> objects w !! a = Some r ->
  py_eq id (get r "transaction_id") = true ->
  vmem id ids = true.
Proof.
  intros HF Ha Hr Heq. apply vmem_true.
  exists (get r "transaction_id"). split; [|assumption].
  eapply id_at_In; eassumption.
Qed.

Lemma count_id_zero (w : world) (id : value) (l : list addr) :
  (forall a, In a l -> has_id w id a = false) -> count_id w id l = O.
Proof.
  induction l as [|a l IH]; simpl; [reflexivity|].
  intros H. rewrite (H a) by auto. rewrite IH by auto. reflexivity.
Qed.

Lemma count_id_frame (w w' : world) (id : value) (l : list addr) :
  (forall a, In a l -> objects w' !! a = objects w !! a) ->
  count_id w' id l = count_id w id l.
Proof.
  induction l as [|a l IH]; simpl; [reflexivity|].
  intros H. unfold has_id. rewrite (H a) by auto. rewrite IH by auto.
  reflexivity.
Qed.

Lemma id_at_lookup (w : world) (existing : list addr) (ids : list value) (a : addr) :
  Forall2 (id_at w) existing ids -> In a existing ->
  exists r, objects w !! a = Some r.
Proof.
  induction 1 as [|a' id existing ids (r' & Hr' & _) HF IH]; simpl; [tauto|].
  intros [<-|Hin]; eauto.
Qed.

(** A row the merge added never carries an identifier of the ledger. *)
Lemma added_row_fresh (w : world) (ids : list value)
    (account_data : vmap dict) (new : list dict) (outs : list (option dict))
    (v : value) (a : addr) :
  Forall2 (outcome_of ids account_data) new outs ->
  vmem v ids = true ->
  In a (seq (length (objects w)) (length (omap id outs))) ->
  has_id (World (objects w ++ omap id outs) (csv_out w)) v a = false.
Proof.
  intros Ho Hknown Ha.
  apply In_seq_rows in Ha as (r & Hr & Hin).
  unfold has_id. cbn [objects]. rewrite Hr.
  destruct (outcomes_rows _ _ _ _ _ Ho Hin) as (t' & _ & Hacc).
  apply accepted_row_id in Hacc as (-> & _ & Hfresh).
  destruct (py_eq v (get t' "transaction_id")) eqn:E; [|reflexivity].
  apply vmem_true in Hknown as (u & Hu & Hidu).
  assert (vmem (get t' "transaction_id") ids = true); [|congruence].
  apply vmem_true. exists u. split; [assumption|].
  eapply py_eq_trans; [apply py_eq_sym, E | exact Hidu].
Qed.

(** The rows with a known identifier are the ledger's, before and after. *)
Lemma merge_keeps_known (existing : list addr) (new : list dict)
    (account_data : vmap dict) (merged : list addr) (w w' : world)
    (v : value) (a0 : addr) (r0 : dict) :
  merge_transactions existing new account_data w = (inr merged, w') ->
  In a0 existing -> objects w !! a0 = Some r0 ->
  py_eq v (get r0 "transaction_id") = true ->
  count_id w' v merged = count_id w v existing /\
  (forall a, In a merged -> has_id w' v a = true ->
             In a existing /\ objects w' !! a = objects w !! a).
Proof.
  intros H Ha0 Hr0 Heq.
  apply merge_transactions_run in H as (ids & outs & Hi & Ho & -> & ->).
  assert (Hknown : vmem v ids = true) by (eapply known_id_vmem; eassumption).
  assert (Hframe : forall a, In a existing ->
            (objects w ++ omap id outs) !! a = objects w !! a).
  { intros a Ha. destruct (id_at_lookup _ _ _ _ Hi Ha) as (r & Hr).
    rewrite Hr. now apply lookup_app_l_Some. }
  split.
  - rewrite count_id_app.
    rewrite (count_id_zero _ _ (seq _ _))
      by (intros a Ha; eapply added_row_fresh; eassumption).
    rewrite Nat.add_0_r. now apply count_id_frame.
  - intros a Ha Hhas. apply in_app_or in Ha as [Ha|Ha].
    + split; [assumption|]. now apply Hframe.
    + rewrite (added_row_fresh _ _ _ _ _ _ _ Ho Hknown Ha) in Hhas. discriminate.
Qed.

(** A transaction with a known identifier changes nothing in the run. *)
Lemma merge_skip_eq (existing : list addr) (pre post : list dict) (t : dict)
    (account_data : vmap dict) (w : world) (a0 : addr) (r0 : dict) :
  In a0 existing -> objects w !! a0 = Some r0 ->
  py_eq (get t "transaction_id") (get r0 "transaction_id") = true ->
  merge_transactions existing (pre ++ t :: post) account_data w =
  merge_transactions existing (pre ++ post) account_data w.
Proof.
  intros Ha0 Hr0 Heq. unfold merge_transactions. rewrite !bind_run.
  destruct (transaction_ids existing w) as [[e|ids] w1] eqn:E; [reflexivity|].
  apply transaction_ids_run in E as [-> Hi].
  rewrite !for_each_app.
  destruct (for_each _ pre existing w) as [[e|m1] w1]; [reflexivity|].
  cbn [for_each]. rewrite bind_run, merge_one_run, accepted_row_skip; [reflexivity|].
  eapply known_id_vmem; eassumption.
Qed.

(** ** Merging again *)

Lemma id_at_grow (objs rows : list dict) (c c' : list (list value))
    (a : addr) (v : value) :
  id_at (World objs c) a v -> id_at (World (objs ++ rows) c') a v.
Proof.
  intros (r & Hr & Hv & Hh). exists r. cbn [objects] in *.
  split; [now apply lookup_app_l_Some | auto].
Qed.

Lemma id_at_new_rows (objs rows : list dict) (c : list (list value)) :
  Forall (fun r => hashable (get r "transaction_id") = true) rows ->
  Forall2 (id_at (World (objs ++ rows) c))
          (seq (length objs) (length rows))
          ((fun r => get r "transaction_id") <$> rows).
Proof.
  intros Hh. apply Forall2_same_length_lookup_2.
  - now rewrite length_seq, length_fmap.
  - intros i a v Ha Hv.
    apply lookup_seq in Ha as [-> Hi].
    rewrite list_lookup_fmap in Hv.
    destruct (rows !! i) as [r|] eqn:Hr; [|discriminate].
    injection Hv as <-.
    exists r. cbn [objects]. rewrite lookup_seq_app.
    split; [assumption|]. split; [reflexivity|].
    rewrite Forall_forall in Hh. apply Hh.
    eapply list_elem_of_lookup_2, Hr.
Qed.

Lemma omap_all_None (outs : list (option dict)) :
  omap id ((fun _ => @None dict) <$> outs) = [].
Proof. induction outs as [|o outs IH]; simpl; auto. Qed.

Lemma outcomes_second_run (ids ids2 : list value) (account_data : vmap dict)
    (new : list dict) (outs : list (option dict)) :
  (forall v, vmem v ids = true -> vmem v ids2 = true) ->
  (forall t r, accepted_row ids account_data t = inr (Some r) ->
               In t new -> vmem (get t "transaction_id") ids2 = true) ->
  Forall2 (outcome_of ids account_data) new outs ->
  Forall2 (outcome_of ids2 account_data) new ((fun _ => None) <$> outs).
Proof.
  intros Hsub Hnew HF. induction HF as [|t o new outs Ho HF IH]; simpl.
  - constructor.
  - constructor.
    + unfold outcome_of in *. destruct o as [r|].
      * apply accepted_row_skip. eapply Hnew; [eassumption | now left].
      * eapply accepted_row_None_mono; eassumption.
    + apply IH. intros t' r' Hacc Hin. eapply Hnew; [eassumption | now right].
Qed.

Lemma accepted_in_rows (ids : list value) (account_data : vmap dict)
    (new : list dict) (outs : list (option dict)) (t r : dict) :
  Forall2 (outcome_of ids account_data) new outs ->
  In t new -> accepted_row ids account_data t = inr (Some r) ->
  In r (omap id outs).
Proof.
  induction 1 as [|t' o new outs Ho HF IH]; simpl; [tauto|].
  intros [->|Hin] Hacc.
  - unfold outcome_of in Ho. rewrite Hacc in Ho. injection Ho as <-. now left.
  - destruct o; simpl; auto.
Qed.

(** Merging the same fetch into the merged list appends nothing. *)
Lemma merge_again (existing : list addr) (new : list dict)
    (account_data : vmap dict) (merged : list addr) (w w' : world) :
  merge_transactions existing new account_data w = (inr merged, w') ->
  merge_transactions merged new account_data w' = (inr merged, w').
Proof.
  intros H.
  apply merge_transactions_run in H as (ids & outs & Hi & Ho & -> & ->).
  set (rows := omap id outs).
  assert (Hrows : Forall (fun r => hashable (get r "transaction_id") = true) rows).
  { apply Forall_forall. intros r Hr. apply list_elem_of_In in Hr.
    destruct (outcomes_rows _ _ _ _ _ Ho Hr) as (t & _ & Hacc).
    apply accepted_row_id in Hacc as (-> & Hh & _). exact Hh. }
  apply merge_transactions_run.
  exists (ids ++ ((fun r => get r "transaction_id") <$> rows)),
         ((fun _ => None) <$> outs).
  repeat split.
  - apply Forall2_app.
    + eapply Forall2_impl; [exact Hi|].
      intros a v Hav. destruct w as [objs c]. now apply (id_at_grow objs _ c c).
    + now apply id_at_new_rows.
  - eapply outcomes_second_run; [| |exact Ho].
    + intros v Hv. rewrite vmem_app, Hv. reflexivity.
    + intros t r Hacc Hin. rewrite vmem_app. apply orb_true_iff. right.
      apply vmem_true. exists (get t "transaction_id").
      pose proof (accepted_in_rows _ _ _ _ _ _ Ho Hin Hacc) as Hr.
      apply accepted_row_id in Hacc as (Hid & Hh & _).
      split; [|now apply py_eq_refl].
      rewrite <- Hid. apply list_elem_of_In.
      apply (list_elem_of_fmap_2 (fun r => get r "transaction_id") rows r).
      now apply list_elem_of_In.
  - rewrite omap_all_None. simpl. now rewrite app_nil_r.
  - rewrite omap_all_None. cbn [objects csv_out]. now rewrite app_nil_r.
Qed.

(** ** C1: a fetched transaction the ledger already has *)

(** C1 - A fetched transaction whose identifier is that of a ledger row is
    skipped: the merge runs as if it were not in the fetch; in the merged
    list the rows with that identifier are the ledger's own (as many as
    before, so exactly one when the ledger has one, each an unchanged ledger
    row); and merging the same fetch into the result appends nothing. *)
Theorem merge_transactions_skips_known_id (existing : list addr)
    (pre post : list dict) (t : dict) (account_data : vmap dict) (w : world)
    (a0 : addr) (r0 : dict) :
  In a0 existing -> objects w !! a0 = Some r0 ->
  py_eq (get t "transaction_id") (get r0 "transaction_id") = true ->
  merge_transactions existing (pre ++ t :: post) account_data w =
    merge_transactions existing (pre ++ post) account_data w /\
  forall merged w',
    merge_transactions existing (pre ++ t :: post) account_data w
      = (inr merged, w') ->
    count_id w' (get t "transaction_id") merged
      = count_id w (get t "transaction_id") existing /\
    (count_id w (get t "transaction_id") existing = 1%nat ->
     count_id w' (get t "transaction_id") merged = 1%nat) /\
    (forall a, In a merged -> has_id w' (get t "transaction_id") a = true ->
               In a existing /\ objects w' !! a = objects w !! a) /\
    merge_transactions merged (pre ++ t :: post) account_data w'
      = (inr merged, w').
Proof.
  intros Ha0 Hr0 Heq. split.
  - eapply merge_skip_eq; eassumption.
  - intros merged w' Hrun.
    destruct (merge_keeps_known _ _ _ _ _ _ _ _ _ Hrun Ha0 Hr0 Heq) as [Hcount Horig].
    repeat split.
    + exact Hcount.
    + intros H1. now rewrite Hcount.
    + apply Horig; assumption.
    + apply Horig; assumption.
    + exact (merge_again _ _ _ _ _ _ Hrun).
Qed.

(** ** C3: the identifiers of the added rows *)

Definition row_id (r : dict) : value := get r "transaction_id".

Lemma ids_of_new_rows (rows pre : list dict) (c : list (list value)) :
  ids_of (World (pre ++ rows) c) (seq (length pre) (length rows)) = map row_id rows.
Proof.
  revert pre. induction rows as [|r rows IH]; intros pre; [reflexivity|].
  cbn [length seq map]. unfold ids_of. cbn [omap list_omap objects].
  rewrite list_lookup_middle by reflexivity. cbn [option_map].
  f_equal.
  specialize (IH (pre ++ [r])). unfold ids_of in IH. cbn [objects] in IH.
  rewrite <- app_assoc, length_app in IH. cbn [length app] in IH.
  rewrite Nat.add_1_r in IH. exact IH.
Qed.

Lemma accepted_ids_sub (ids : list value) (account_data : vmap dict)
    (new : list dict) (outs : list (option dict)) (v : value) :
  Forall2 (outcome_of ids account_data) new outs ->
  vmem v (map row_id (omap id outs)) = true ->
  vmem v (map row_id new) = true.
Proof.
  induction 1 as [|t o new outs Ho HF IH]; [auto|].
  destruct o as [r|]; cbn [omap list_omap id map vmem existsb].
  - apply accepted_row_id in Ho as (Hid & _). unfold row_id at 1 3.
    rewrite Hid. intros H. apply orb_true_iff in H as [H|H].
    + now rewrite H.
    + apply orb_true_iff. right. now apply IH.
  - intros H. apply orb_true_iff. right. now apply IH.
Qed.

Lemma accepted_ids_distinct (ids : list value) (account_data : vmap dict)
    (new : list dict) (outs : list (option dict)) :
  Forall2 (outcome_of ids account_data) new outs ->
  distinct_ids (map row_id new) = true ->
  distinct_ids (map row_id (omap id outs)) = true.
Proof.
  induction 1 as [|t o new outs Ho HF IH]; [auto|].
  cbn [map distinct_ids]. intros H. apply andb_true_iff in H as [Hfresh Hrest].
  destruct o as [r|]; cbn [omap list_omap id map distinct_ids]; [|auto].
  apply andb_true_iff. split; [|auto].
  apply accepted_row_id in Ho as (Hid & _). unfold row_id at 1. rewrite Hid.
  destruct (vmem (get t "transaction_id") (map row_id (omap id outs))) eqn:E;
    [|reflexivity].
  apply (accepted_ids_sub _ _ _ _ _ HF) in E. unfold row_id at 1 in Hfresh.
  now rewrite E in Hfresh.
Qed.

(** C3 (as the code has it) - The identifiers of the rows a merge added
    are never those of a ledger row; they are pairwise different whenever
    the identifiers of the fetched transactions are: the merge compares a
    fetched transaction with the ledger only, not with the rest of the
    batch. *)
Theorem merge_transactions_added_ids (existing : list addr) (new : list dict)
    (account_data : vmap dict) (merged : list addr) (w w' : world) :
  merge_transactions existing new account_data w = (inr merged, w') ->
  (forall v a r, In v (ids_of w' (added existing merged)) ->
                 In a existing -> objects w !! a = Some r ->
                 py_eq v (get r "transaction_id") = false) /\
  (distinct_ids (map row_id new) = true ->
   distinct_ids (ids_of w' (added existing merged)) = true).
Proof.
  intros H. apply merge_transactions_run in H as (ids & outs & Hi & Ho & -> & ->).
  rewrite added_app, ids_of_new_rows. split.
  - intros v a r Hv Ha Hr.
    apply in_map_iff in Hv as (r' & <- & Hr').
    destruct (outcomes_rows _ _ _ _ _ Ho Hr') as (t & _ & Hacc).
    apply accepted_row_id in Hacc as (Hid & _ & Hfresh).
    unfold row_id. rewrite Hid.
    destruct (py_eq (get t "transaction_id") (get r "transaction_id")) eqn:E;
      [|reflexivity].
    rewrite (known_id_vmem _ _ _ _ _ _ Hi Ha Hr E) in Hfresh. discriminate.
  - now apply (accepted_ids_distinct ids account_data).
Qed.

(** ** C8: a transaction of an unknown account *)

(** C8 (as the code has it) - A fetched transaction that is not in the
    ledger and whose account the resolver does not know makes the merge
    fail: no list is returned, so no row of it reaches the output; when the
    transactions before it went through, the error is the [KeyError] of
    the account lookup, which carries the account id and nothing of the
    transaction. *)
Theorem merge_transactions_unknown_account (existing : list addr)
    (pre post : list dict) (t : dict) (account_data : vmap dict) (w : world)
    (ids : list value) :
  transaction_ids existing w = (inr ids, w) ->
  hashable (get t "transaction_id") = true ->
  vmem (get t "transaction_id") ids = false ->
  hashable (get t "account_id") = true ->
  vlookup (get t "account_id") account_data = None ->
  (forall merged w',
     merge_transactions existing (pre ++ t :: post) account_data w
       <> (inr merged, w')) /\
  (forall m1 w1,
     for_each (merge_one ids account_data) pre existing w = (inr m1, w1) ->
     merge_transactions existing (pre ++ t :: post) account_data w
       = (inl (KeyError (get t "account_id")), w1)).
Proof.
  intros Hids Hh Hfresh Hacc Hnone.
  unfold merge_transactions. rewrite bind_run, Hids, for_each_app.
  destruct (for_each (merge_one ids account_data) pre existing w)
    as [[e|m1] w1] eqn:Hpre.
  - split; [discriminate | intros ? ? [=]].
  - cbn [for_each].
    rewrite bind_run, merge_one_run, accepted_row_unknown_account by assumption.
    split; [discriminate | now intros ? ? [= _ <-]].
Qed.

(** ** The account records *)

Lemma vlookup_vset_eq {A} (k : value) (x : A) (m : vmap A) :
  hashable k = true -> vlookup k (vset k x m) = Some x.
Proof.
  intros Hk. induction m as [|[k' x'] m IH]; simpl.
  - now rewrite py_eq_refl.
  - destruct (py_eq k k') eqn:E; simpl; now rewrite ?E.
Qed.

Lemma vset_vset {A} (k : value) (x y : A) (m : vmap A) :
  hashable k = true -> vset k y (vset k x m) = vset k y m.
Proof.
  intros Hk. induction m as [|[k' x'] m IH]; simpl.
  - now rewrite py_eq_refl.
  - destruct (py_eq k k') eqn:E; simpl; rewrite E; [reflexivity | now rewrite IH].
Qed.

Lemma set_field_vset (m : vmap dict) (k : value) (d : dict) (f : string) (v : value) :
  hashable k = true ->
  set_field (vset k d m) k f v = vset k (setitem f v d) m.
Proof.
  intros Hk. unfold set_field. rewrite vlookup_vset_eq by assumption.
  now apply vset_vset.
Qed.

Lemma vset_In {A} (k k0 : value) (x x0 : A) (m : vmap A) :
  In (k0, x0) (vset k x m) -> x0 = x \/ In (k0, x0) m.
Proof.
  induction m as [|[k' x'] m IH]; simpl.
  - intros [[= <- <-]|[]]. now left.
  - destruct (py_eq k k'); simpl.
    + intros [[= <- <-]|H]; auto.
    + intros [H|H]; [auto|]. destruct (IH H); auto.
Qed.

Lemma vlookup_In {A} (k : value) (x : A) (m : vmap A) :
  vlookup k m = Some x -> exists k', In (k', x) m.
Proof.
  induction m as [|[k' x'] m IH]; simpl; [discriminate|].
  destruct (py_eq k k').
  - intros [= <-]. eauto.
  - intros H. destruct (IH H) as (k0 & Hk0). eauto.
Qed.

(** The record [build_account_details] makes of an account. *)
Definition account_record (name : value) (account : dict) : dict :=
  [("bank_account_number", get account "mask");
   ("account_name", name);
   ("institution_type", get account "type");
   ("account_type", get account "type");
   ("account_subtype", get account "subtype")].

Lemma add_account_run (cfg : config) (account_dict : vmap dict) (account : dict)
    (w : world) :
  add_account cfg account_dict account w =
  if hashable (get account "account_id") then
    match bank_name cfg (get account "mask") w with
    | (inl e, w') => (inl e, w')
    | (inr name, w') =>
        (inr (vset (get account "account_id") (account_record name account)
                   account_dict), w')
    end
  else (inl TypeError, w).
Proof.
  unfold add_account. rewrite bind_run. unfold hash_check at 1.
  destruct (hashable (get account "account_id")) eqn:Hk; [|reflexivity].
  cbn [ret]. rewrite bind_run.
  destruct (bank_name cfg (get account "mask") w) as [[e|name] w']; [reflexivity|].
  rewrite !set_field_vset by assumption. reflexivity.
Qed.

Lemma build_account_details_loop (cfg : config) (accounts : list dict)
    (acc account_data : vmap dict) (w w' : world) :
  for_each (add_account cfg) accounts acc w = (inr account_data, w') ->
  forall k d, In (k, d) account_data ->
    In (k, d) acc \/
    exists account name, In account accounts /\ d = account_record name account.
Proof.
  revert acc w. induction accounts as [|account accounts IH]; intros acc w;
    cbn [for_each].
  - intros [= <- <-] k d Hin. now left.
  - rewrite bind_run, add_account_run.
    destruct (hashable (get account "account_id")); [|discriminate].
    destruct (bank_name cfg (get account "mask") w) as [[e|name] w1]; [discriminate|].
    intros Hrest k d Hin.
    destruct (IH _ _ Hrest k d Hin) as [Hacc|(account' & name' & Ha & Hd)].
    + apply vset_In in Hacc as [->|Hacc]; [|now left].
      right. exists account, name. split; [now left | reflexivity].
    + right. exists account', name'. split; [now right | assumption].
Qed.

Lemma build_account_details_records (cfg : config) (accounts : list dict)
    (account_data : vmap dict) (w w' : world) :
  build_account_details cfg accounts w = (inr account_data, w') ->
  forall k d, In (k, d) account_data ->
    exists account name, In account accounts /\ d = account_record name account.
Proof.
  intros H k d Hin.
  destruct (build_account_details_loop _ _ _ _ _ _ H k d Hin) as [[]|Hd].
  exact Hd.
Qed.

Lemma get_normalized_type (t account : dict) (name : value) (pc : string)
    (a c s z k : value) :
  get (normalized t (account_record name account) pc a c s z k) "institution_type"
    = get account "type" /\
  get (normalized t (account_record name account) pc a c s z k) "account_type"
    = get account "type".
Proof.
  unfold normalized.
  rewrite !get_setitem_ne by discriminate. split; reflexivity.
Qed.

(** ** The frequency model counts the ledger *)

Lemma py_eq_congr (k k0 k' : value) :
  py_eq k k0 = true -> py_eq k' k0 = py_eq k' k.
Proof.
  intros H.
  destruct (py_eq k' k0) eqn:E1, (py_eq k' k) eqn:E2; try reflexivity.
  - rewrite (py_eq_trans _ _ _ E1 (py_eq_sym _ _ H)) in E2. discriminate.
  - rewrite (py_eq_trans _ _ _ E2 H) in E1. discriminate.
Qed.

Lemma py_eq_congr_l (k k' k0 : value) :
  py_eq k' k = true -> py_eq k' k0 = py_eq k k0.
Proof.
  intros H.
  destruct (py_eq k' k0) eqn:E1, (py_eq k k0) eqn:E2; try reflexivity.
  - rewrite (py_eq_trans _ _ _ (py_eq_sym _ _ H) E1) in E2. discriminate.
  - rewrite (py_eq_trans _ _ _ H E2) in E1. discriminate.
Qed.

Lemma vlookup_vset {A} (k k' : value) (x : A) (m : vmap A) :
  vlookup k' (vset k x m) = if py_eq k' k then Some x else vlookup k' m.
Proof.
  induction m as [|[k0 x0] m IH]; simpl; [reflexivity|].
  destruct (py_eq k k0) eqn:E; simpl.
  - rewrite (py_eq_congr _ _ k' E). now destruct (py_eq k' k).
  - rewrite IH. destruct (py_eq k' k0) eqn:E0; [|reflexivity].
    destruct (py_eq k' k) eqn:E1; [|reflexivity].
    rewrite (py_eq_trans _ _ _ (py_eq_sym _ _ E1) E0) in E. discriminate.
Qed.

Lemma vlookup_congr {A} (k k' : value) (m : vmap A) :
  py_eq k' k = true -> vlookup k' m = vlookup k m.
Proof.
  intros H. induction m as [|[k0 x0] m IH]; simpl; [reflexivity|].
  now rewrite (py_eq_congr_l _ _ k0 H), IH.
Qed.

(** The count the model holds for a description and a category. *)
Definition model_count (m : category_model) (d c : value) : Z :=
  default 0 (vlookup c (default [] (vlookup d m))).

(** What one ledger row adds to the count of a description and a
    category. *)
Definition tally_row (d c : value) (r : dict) : Z :=
  if truthy (get r "category") && py_eq d (get r "description")
     && py_eq c (get r "category")
  then 1 else 0.

Fixpoint tally (w : world) (d c : value) (txs : list addr) : Z :=
  match txs with
  | [] => 0
  | a :: txs' =>
      match objects w !! a with
      | Some r => tally_row d c r
      | None => 0
      end + tally w d c txs'
  end.

Lemma model_count_count_up (m : category_model) (d c d' c' : value) :
  model_count
    (vset d (vset c (model_count m d c + 1) (default [] (vlookup d m))) m) d' c'
  = model_count m d' c' + (if py_eq d' d && py_eq c' c then 1 else 0).
Proof.
  unfold model_count at 1. rewrite vlookup_vset.
  destruct (py_eq d' d) eqn:Ed; cbn [andb from_option].
  - change (id (vset c (model_count m d c + 1) (default [] (vlookup d m))))
      with (vset c (model_count m d c + 1) (default [] (vlookup d m))).
    rewrite vlookup_vset.
    unfold model_count. rewrite (vlookup_congr d d' m Ed).
    destruct (py_eq c' c) eqn:Ec; cbn [from_option]; unfold id.
    + rewrite (vlookup_congr c c' _ Ec). reflexivity.
    + lia.
  - unfold model_count. lia.
Qed.

Lemma count_row_run (m : category_model) (a : addr) (w : world) (m' : category_model)
    (w' : world) :
  count_row m a w = (inr m', w') ->
  w' = w /\
  forall d c,
    model_count m' d c
    = model_count m d c
      + match objects w !! a with Some r => tally_row d c r | None => 0 end.
Proof.
  unfold count_row. rewrite bind_run. unfold deref at 1.
  destruct (objects w !! a) as [r|] eqn:Hr; [|discriminate].
  rewrite bind_run. unfold getitem at 1. unfold tally_row, get, get_or.
  destruct (lookup_key "category" r) as [c0|] eqn:Hc; [|discriminate].
  cbn [ret]. destruct (truthy c0) eqn:Ht.
  - rewrite bind_run. unfold getitem.
    destruct (lookup_key "description" r) as [d0|] eqn:Hd; [|discriminate].
    cbn [ret]. unfold count_up. rewrite !bind_run. unfold hash_check.
    destruct (hashable d0); [|discriminate]. cbn [ret].
    rewrite bind_run. destruct (hashable c0); [|discriminate]. cbn [ret].
    intros [= <- <-]. split; [reflexivity|]. intros d c.
    apply model_count_count_up.
  - intros [= <- <-]. split; [reflexivity|]. intros d c. cbn [andb]. lia.
Qed.

Lemma group_loop_counts (txs : list addr) (acc m : category_model) (w w' : world) :
  for_each count_row txs acc w = (inr m, w') ->
  w' = w /\ forall d c, model_count m d c = model_count acc d c + tally w d c txs.
Proof.
  revert acc. induction txs as [|a txs IH]; intros acc; cbn [for_each tally].
  - intros [= <- <-]. split; [reflexivity|]. intros; lia.
  - rewrite bind_run.
    destruct (count_row acc a w) as [[e|acc1] w1] eqn:Hstep; [discriminate|].
    apply count_row_run in Hstep as [-> Hacc1].
    intros Hrest. destruct (IH _ Hrest) as [-> Hm].
    split; [reflexivity|]. intros d c. rewrite Hm, Hacc1. lia.
Qed.

(** The model holds, for a description and a category, the number of
    categorized ledger rows with that description and that category. *)
Lemma group_transactions_by_category_counts (txs : list addr)
    (m : category_model) (w w' : world) :
  group_transactions_by_category txs w = (inr m, w') ->
  w' = w /\ forall d c, model_count m d c = tally w d c txs.
Proof.
  intros H. apply group_loop_counts in H as [-> Hm].
  split; [reflexivity|]. intros d c. rewrite Hm. reflexivity.
Qed.

(** ** The most common category of a counter *)

Lemma insert_by_count_In (x y : value * Z) (l : list (value * Z)) :
  In y (insert_by_count x l) <-> y = x \/ In y l.
Proof.
  induction l as [|z l IH]; simpl.
  - intuition congruence.
  - destruct (snd z <? snd x)%Z; simpl; [intuition congruence|].
    rewrite IH. intuition congruence.
Qed.

(** The first entry counts at least as much as every other one. *)
Definition top_first (l : list (value * Z)) : Prop :=
  match l with
  | [] => True
  | x :: l' => forall y, In y l' -> (snd y <= snd x)%Z
  end.

Lemma insert_by_count_top (x : value * Z) (l : list (value * Z)) :
  top_first l -> top_first (insert_by_count x l).
Proof.
  destruct l as [|z l]; simpl; [tauto|].
  intros Hz. destruct (snd z <? snd x)%Z eqn:E; simpl.
  - apply Z.ltb_lt in E. intros y [<-|Hy]; [lia|].
    specialize (Hz y Hy). lia.
  - apply Z.ltb_ge in E. intros y Hy.
    apply insert_by_count_In in Hy as [->|Hy]; auto.
Qed.

Lemma most_common_loop (c acc : list (value * Z)) :
  top_first acc ->
  top_first (fold_left (fun acc x => insert_by_count x acc) c acc) /\
  forall y, In y (fold_left (fun acc x => insert_by_count x acc) c acc)
            <-> In y acc \/ In y c.
Proof.
  revert acc. induction c as [|x c IH]; intros acc Hacc; simpl.
  - split; [assumption | intros y; simpl; tauto].
  - destruct (IH (insert_by_count x acc) (insert_by_count_top x acc Hacc))
      as [Htop Hin].
    split; [assumption|].
    intros y. rewrite Hin, insert_by_count_In. simpl. intuition congruence.
Qed.

(** [most_common()[0]] exists for a counter with an entry, is one of its
    entries and no entry counts more. *)
Lemma most_common_head (c : counter) :
  c <> [] ->
  exists k n rest, most_common c = (k, n) :: rest /\ In (k, n) c /\
                   forall k' n', In (k', n') c -> (n' <= n)%Z.
Proof.
  intros Hne. unfold most_common.
  destruct (most_common_loop c [] I) as [Htop Hin].
  destruct (fold_left _ c []) as [|[k n] rest] eqn:E.
  - destruct c as [|x c]; [congruence|].
    exfalso. apply (proj2 (Hin x)). right. now left.
  - exists k, n, rest. split; [reflexivity|]. split.
    + destruct (proj1 (Hin (k, n))) as [[]|H]; [now left | exact H].
    + intros k' n' H'.
      assert (Hin' : In (k', n') ((k, n) :: rest)) by (apply Hin; now right).
      destruct Hin' as [[= -> ->]|Hrest]; [lia|].
      exact (Htop (k', n') Hrest).
Qed.

(** ** One row of the inference *)

(** The category the model gives for a description. *)
Definition top_category (category_data : category_model) (description : value)
  : value :=
  match vlookup description category_data with
  | Some (x :: c) =>
      match most_common (x :: c) with
      | (category, _) :: _ => category
      | [] => VNone
      end
  | _ => VNone
  end.

Lemma inferred_category_run (category_data : category_model) (description : value)
    (w : world) :
  inferred_category category_data description w =
  if hashable description then (inr (top_category category_data description), w)
  else (inl TypeError, w).
Proof.
  unfold inferred_category, top_category, vget, hash_check.
  rewrite !bind_run.
  destruct (hashable description); [|reflexivity]. cbn [ret].
  destruct (vlookup description category_data) as [[|x c]|]; try reflexivity.
  rewrite !bind_run. cbn [ret from_option]. unfold id.
  destruct (most_common_head (x :: c)) as (k & n & rest & -> & _); [discriminate|].
  reflexivity.
Qed.

(** What the inference makes of a row. *)
Definition infer_row (category_data : category_model) (r : dict) : dict :=
  if truthy (get r "category") then r
  else match lookup_key "description" r with
       | Some d => setitem "category" (top_category category_data d) r
       | None => r
       end.

(** A row the inference can read: without a category it has a description
    that can be looked up. *)
Definition readable (r : dict) : Prop :=
  truthy (get r "category") = false ->
  exists d, lookup_key "description" r = Some d /\ hashable d = true.

Lemma apply_one_run (category_data : category_model) (a : addr) (w : world) :
  apply_one category_data a w =
  match objects w !! a with
  | None => (inl SystemError, w)
  | Some r =>
      if truthy (get r "category") then (inr tt, w)
      else match lookup_key "description" r with
           | None => (inl (KeyError (VStr "description")), w)
           | Some d =>
               if hashable d
               then (inr tt, World (<[a := infer_row category_data r]> (objects w))
                                    (csv_out w))
               else (inl TypeError, w)
           end
  end.
Proof.
  unfold apply_one. rewrite bind_run. unfold deref at 1.
  destruct (objects w !! a) as [r|] eqn:Hr; [|reflexivity].
  unfold infer_row.
  destruct (truthy (get r "category")); cbn [negb]; [reflexivity|].
  rewrite bind_run. unfold getitem.
  destruct (lookup_key "description" r) as [d|]; [|reflexivity].
  cbn [ret]. rewrite bind_run, inferred_category_run.
  destruct (hashable d); [|reflexivity].
  unfold assign. now rewrite Hr.
Qed.

Lemma setitem_setitem (k : string) (v v' : value) (d : dict) :
  setitem k v' (setitem k v d) = setitem k v' d.
Proof.
  induction d as [|[k0 v0] d IH]; simpl.
  - now rewrite String.eqb_refl.
  - destruct (String.eqb k k0) eqn:E; simpl.
    + now rewrite String.eqb_refl.
    + now rewrite E, IH.
Qed.

Lemma infer_row_keeps (category_data : category_model) (r : dict) :
  truthy (get r "category") = true -> infer_row category_data r = r.
Proof. unfold infer_row. now intros ->. Qed.

Lemma infer_row_idem (category_data : category_model) (r : dict) :
  infer_row category_data (infer_row category_data r) = infer_row category_data r.
Proof.
  destruct (truthy (get r "category")) eqn:Hc.
  - rewrite (infer_row_keeps category_data r Hc). exact (infer_row_keeps _ _ Hc).
  - destruct (lookup_key "description" r) as [d|] eqn:Hd.
    + assert (E : infer_row category_data r
                  = setitem "category" (top_category category_data d) r)
        by (unfold infer_row; now rewrite Hc, Hd).
      rewrite E. unfold infer_row. rewrite get_setitem_eq.
      destruct (truthy (top_category category_data d)); [reflexivity|].
      rewrite lookup_setitem_ne, Hd by discriminate.
      apply setitem_setitem.
    + assert (E : infer_row category_data r = r)
        by (unfold infer_row; now rewrite Hc, Hd).
      now rewrite !E.
Qed.

Lemma infer_row_readable (category_data : category_model) (r : dict) :
  readable r -> readable (infer_row category_data r).
Proof.
  unfold readable, infer_row. intros Hr.
  destruct (truthy (get r "category")) eqn:Hc; [congruence|].
  destruct (Hr eq_refl) as (d & Hd & Hh). rewrite Hd.
  intros _. exists d. now rewrite lookup_setitem_ne by discriminate.
Qed.

(** ** The loop of the inference *)

Definition apply_loop (category_data : category_model) (txs : list addr) : M unit :=
  for_each (fun _ a => apply_one category_data a) txs tt.

Lemma apply_loop_cons (category_data : category_model) (a : addr)
    (txs : list addr) (w : world) :
  apply_loop category_data (a :: txs) w =
  match apply_one category_data a w with
  | (inl e, w1) => (inl e, w1)
  | (inr _, w1) => apply_loop category_data txs w1
  end.
Proof.
  unfold apply_loop. cbn [for_each]. rewrite bind_run.
  destruct (apply_one category_data a w) as [[e|[]] w1]; reflexivity.
Qed.

(** A step either leaves the store alone or replaces the row by its
    inferred form. *)
Lemma apply_one_inv (category_data : category_model) (a : addr) (w w1 : world)
    (u : unit) :
  apply_one category_data a w = (inr u, w1) ->
  exists r, objects w !! a = Some r /\
            objects w1 = <[a := infer_row category_data r]> (objects w) /\
            csv_out w1 = csv_out w.
Proof.
  rewrite apply_one_run.
  destruct (objects w !! a) as [r|] eqn:Hr; [|discriminate].
  destruct (truthy (get r "category")) eqn:Hc.
  - intros H. injection H as _ <-. exists r.
    rewrite infer_row_keeps by assumption.
    rewrite list_insert_id by assumption. auto.
  - destruct (lookup_key "description" r) as [d|]; [|discriminate].
    destruct (hashable d); [|discriminate].
    intros H. injection H as _ <-. exists r. auto.
Qed.

Lemma apply_loop_inv (category_data : category_model) (txs : list addr)
    (w w' : world) (u : unit) :
  apply_loop category_data txs w = (inr u, w') ->
  csv_out w' = csv_out w /\
  forall a r, objects w !! a = Some r ->
    (In a txs -> objects w' !! a = Some (infer_row category_data r)) /\
    (~ In a txs -> objects w' !! a = Some r).
Proof.
  revert w. induction txs as [|a0 txs IH]; intros w.
  - unfold apply_loop. cbn [for_each ret]. intros [= <- <-].
    split; [reflexivity|]. intros a r Hr. split; [intros [] | auto].
  - rewrite apply_loop_cons.
    destruct (apply_one category_data a0 w) as [[e|u1] w1] eqn:Hstep; [discriminate|].
    apply apply_one_inv in Hstep as (r0 & Hr0 & Hobj & Hcsv).
    intros Hrest. destruct (IH _ Hrest) as [Hcsv' Hrows].
    split; [congruence|].
    intros a r Hr.
    destruct (Nat.eq_dec a a0) as [->|Hne].
    + assert (r = r0) as -> by congruence.
      assert (H1 : objects w1 !! a0 = Some (infer_row category_data r0)).
      { rewrite Hobj. apply list_lookup_insert_eq. eapply lookup_lt_Some, Hr0. }
      destruct (Hrows _ _ H1) as [Hin Hout]. rewrite infer_row_idem in Hin.
      split; [|intros Hn; exfalso; apply Hn; now left].
      intros _. destruct (in_dec Nat.eq_dec a0 txs); auto.
    + assert (H1 : objects w1 !! a = Some r).
      { rewrite Hobj, list_lookup_insert_ne; auto. }
      destruct (Hrows _ _ H1) as [Hin Hout]. split.
      * intros [->|H]; [congruence | auto].
      * intros Hn. apply Hout. intros H. apply Hn. now right.
Qed.

(** The loop goes through when every listed row can be read. *)
Lemma apply_loop_total (category_data : category_model) (txs : list addr)
    (w : world) :
  (forall a, In a txs -> exists r, objects w !! a = Some r /\ readable r) ->
  exists w', apply_loop category_data txs w = (inr tt, w').
Proof.
  revert w. induction txs as [|a0 txs IH]; intros w Hok.
  - exists w. reflexivity.
  - rewrite apply_loop_cons.
    destruct (Hok a0 (or_introl eq_refl)) as (r0 & Hr0 & Hread).
    assert (Hstep : exists w1, apply_one category_data a0 w = (inr tt, w1)).
    { rewrite apply_one_run, Hr0.
      destruct (truthy (get r0 "category")) eqn:Hc; [eauto|].
      destruct (Hread Hc) as (d & -> & ->). eauto. }
    destruct Hstep as (w1 & Hstep). rewrite Hstep.
    apply IH. intros a Ha.
    apply apply_one_inv in Hstep as (r0' & Hr0' & Hobj & _).
    assert (r0' = r0) as -> by congruence.
    destruct (Hok a (or_intror Ha)) as (r & Hr & Hrr).
    destruct (Nat.eq_dec a a0) as [->|Hne].
    + exists (infer_row category_data r0). split.
      * rewrite Hobj. apply list_lookup_insert_eq. eapply lookup_lt_Some, Hr0.
      * now apply infer_row_readable.
    + exists r. split; [|assumption].
      rewrite Hobj, list_lookup_insert_ne; auto.
Qed.

Lemma apply_transaction_categories_run (txs : list addr)
    (category_data : category_model) (w : world) :
  apply_transaction_categories txs category_data w =
  match apply_loop category_data txs w with
  | (inl e, w') => (inl e, w')
  | (inr _, w') => (inr txs, w')
  end.
Proof. reflexivity. Qed.

(** ** C4: the inferred category *)

(** C4 - When every listed row can be read, the inference goes through,
    and a listed row without a category gets, in its [category] field and
    nowhere else, the category of the model that counts most for its
    description (one whose count no other category of that description
    exceeds); when the model has nothing for the description the field is
    [None]. *)
Theorem apply_transaction_categories_infers (txs : list addr)
    (category_data : category_model) (w : world) :
  (forall a, In a txs -> exists r, objects w !! a = Some r /\ readable r) ->
  exists w',
    apply_transaction_categories txs category_data w = (inr txs, w') /\
    forall a r d,
      In a txs -> objects w !! a = Some r ->
      truthy (get r "category") = false ->
      lookup_key "description" r = Some d ->
      exists r',
        objects w' !! a = Some r' /\
        (forall k, k <> "category" -> lookup_key k r' = lookup_key k r) /\
        match vlookup d category_data with
        | Some (x :: c) =>
            exists n, In (get r' "category", n) (x :: c) /\
                      forall k' n', In (k', n') (x :: c) -> (n' <= n)%Z
        | _ => get r' "category" = VNone
        end.
Proof.
  intros Hok.
  destruct (apply_loop_total category_data txs w Hok) as (w' & Hrun).
  exists w'. rewrite apply_transaction_categories_run, Hrun.
  split; [reflexivity|].
  intros a r d Ha Hr Hc Hd.
  destruct (apply_loop_inv _ _ _ _ _ Hrun) as [_ Hrows].
  destruct (Hrows a r Hr) as [Hin _].
  exists (infer_row category_data r). split; [auto|].
  unfold infer_row. rewrite Hc, Hd. split.
  - intros k Hk. apply lookup_setitem_ne. congruence.
  - rewrite get_setitem_eq. unfold top_category.
    destruct (vlookup d category_data) as [[|x c]|]; try reflexivity.
    destruct (most_common_head (x :: c)) as (k & n & rest & -> & Hin' & Hmax);
      [discriminate|].
    exists n. auto.
Qed.

(** ** C5: a row that has a category *)

(** C5 - A row with a category is left as it is: its step of the
    inference changes nothing and cannot fail, and after an inference over
    any list the row is the same in every field. *)
Theorem apply_transaction_categories_keeps (txs : list addr)
    (category_data : category_model) (w : world) (a : addr) (r : dict) :
  objects w !! a = Some r ->
  truthy (get r "category") = true ->
  apply_one category_data a w = (inr tt, w) /\
  forall txs' w',
    apply_transaction_categories txs category_data w = (inr txs', w') ->
    objects w' !! a = Some r.
Proof.
  intros Hr Hc. split.
  - now rewrite apply_one_run, Hr, Hc.
  - intros txs' w'. rewrite apply_transaction_categories_run.
    destruct (apply_loop category_data txs w) as [[e|u] w1] eqn:Hrun; [discriminate|].
    intros [= _ <-].
    destruct (apply_loop_inv _ _ _ _ _ Hrun) as [_ Hrows].
    destruct (Hrows a r Hr) as [Hin Hout].
    destruct (in_dec Nat.eq_dec a txs) as [Ha|Ha].
    + rewrite (Hin Ha). now rewrite infer_row_keeps.
    + auto.
Qed.


(** ** C9: the guard of save_results_to_csv *)

(** The check of the first line of [save_results_to_csv]. *)
Definition first_record_fits (cfg : config) (w : world) (transactions : list addr)
  : bool :=
  match transactions with
  | [] => false
  | a :: _ =>
      match objects w !! a with
      | Some first => (length first =? length (FIELDNAMES cfg))%nat
      | None => false
      end
  end.

(** The records of the file once the list is written. *)
Definition write_all (cfg : config) (transactions : list addr) : M unit :=
  open_w ;;;
  write_record (map VStr (FIELDNAMES cfg)) ;;;
  for_each (fun _ a =>
    rowdict <- deref a ;;
    r <- dict_to_list (FIELDNAMES cfg) rowdict ;;
    write_record r) transactions tt.

Lemma save_results_to_csv_run (cfg : config) (transactions : list addr) (w : world) :
  save_results_to_csv cfg transactions w =
  match transactions with
  | [] => (inl IndexError, w)
  | a :: _ =>
      match objects w !! a with
      | None => (inl SystemError, w)
      | Some first =>
          if (length first =? length (FIELDNAMES cfg))%nat
          then write_all cfg transactions w
          else (inl AssertionError, w)
      end
  end.
Proof.
  unfold save_results_to_csv. rewrite bind_run.
  destruct transactions as [|a rest]; [reflexivity|].
  unfold deref. destruct (objects w !! a) as [first|]; [|reflexivity].
  destruct (length first =? length (FIELDNAMES cfg))%nat; reflexivity.
Qed.

(** C9 (as the code has it) - [save_results_to_csv] fails before it opens
    the output file when the list is empty ([IndexError]) or when its first
    record has not as many fields as [FIELDNAMES] ([AssertionError]): the
    store and the file are then what they were.  Only the first record is
    counted. *)
Theorem save_results_to_csv_guard (cfg : config) (transactions : list addr)
    (w : world) :
  first_record_fits cfg w transactions = false ->
  exists e,
    save_results_to_csv cfg transactions w = (inl e, w) /\
    (transactions = [] -> e = IndexError) /\
    (forall a rest first,
       transactions = a :: rest -> objects w !! a = Some first ->
       e = AssertionError).
Proof.
  rewrite save_results_to_csv_run. unfold first_record_fits.
  destruct transactions as [|a rest].
  - intros _. exists IndexError. repeat split; congruence.
  - destruct (objects w !! a) as [first|] eqn:Hfirst.
    + intros ->. exists AssertionError. repeat split; congruence.
    + intros _. exists SystemError. repeat split; [discriminate|].
      intros a' rest' first Heq H. injection Heq as <- _.
      assert (Hx : @None dict = Some first)
        by (etransitivity; [symmetry; exact Hfirst | exact H]).
      discriminate.
Qed.

(** ** Worked examples *)

(** The ledger of the spec's example: three rows "COFFEE SHOP", two
    categorized Dining and one Groceries. *)
Definition ledger3 : list dict :=
  [coffee "Dining" "tx_123"; coffee "Dining" "tx_124"; coffee "Groceries" "tx_125"].

Definition w3 : world := World ledger3 [].

(** The resolver built from one account. *)
Definition accounts1 : vmap dict :=
  Eval vm_compute in
    match run (build_account_details cfg0 [acct1]) [] with
    | (inr m, _) => m
    | (inl _, _) => []
    end.

(** A fetched transaction without a category of its own and without a
    location. *)
Definition tx9 : dict := tx "tx_900" "acc1" "COFFEE SHOP".
Definition tx_again : dict := tx "tx_123" "acc1" "COFFEE SHOP".
Definition tx_ghost1 : dict := tx "tx_901" "ghost" "A".
Definition tx_ghost2 : dict := tx "tx_902" "ghost" "B".

Lemma merge_transactions_skips_known_id_witness :
  In 0%nat [0; 1; 2]%nat /\
  objects w3 !! 0%nat = Some (coffee "Dining" "tx_123") /\
  py_eq (get tx_again "transaction_id")
        (get (coffee "Dining" "tx_123") "transaction_id") = true /\
  merge_transactions [0; 1; 2]%nat ([tx9] ++ tx_again :: []) accounts1 w3 =
  merge_transactions [0; 1; 2]%nat ([tx9] ++ []) accounts1 w3.
Proof.
  assert (H1 : In 0%nat [0; 1; 2]%nat) by (simpl; auto).
  assert (H2 : objects w3 !! 0%nat = Some (coffee "Dining" "tx_123")) by reflexivity.
  assert (H3 : py_eq (get tx_again "transaction_id")
                     (get (coffee "Dining" "tx_123") "transaction_id") = true)
    by reflexivity.
  exact (conj H1 (conj H2 (conj H3
           (proj1 (merge_transactions_skips_known_id
                     [0; 1; 2]%nat [tx9] [] tx_again accounts1 w3 0%nat
                     (coffee "Dining" "tx_123") H1 H2 H3))))).
Defined.

(** The spec's example: the ledger has "tx_123" and the fetch returns it
    again; the merged list has one row with that identifier. *)
Example merge_tx_123_once :
  exists merged w',
    merge_transactions [0; 1; 2]%nat [tx9; tx_again] accounts1 w3 = (inr merged, w') /\
    count_id w' (VStr "tx_123") merged = 1%nat.
Proof. eexists _, _. split; [vm_compute; reflexivity | reflexivity]. Qed.

(** A fetch with the same new identifier twice: both rows are added. *)
Lemma merge_transactions_repeats_batch_id :
  exists merged w',
    merge_transactions [0; 1; 2]%nat [tx9; tx9] accounts1 w3 = (inr merged, w') /\
    ids_of w' (added [0; 1; 2]%nat merged) = [VStr "tx_900"; VStr "tx_900"] /\
    distinct_ids (ids_of w' (added [0; 1; 2]%nat merged)) = false.
Proof.
  eexists _, _. split; [vm_compute; reflexivity|]. split; reflexivity.
Qed.

Lemma merge_transactions_added_ids_witness :
  exists merged w',
    merge_transactions [0; 1; 2]%nat [tx9; tx_again] accounts1 w3 = (inr merged, w') /\
    distinct_ids (map row_id [tx9; tx_again]) = true /\
    distinct_ids (ids_of w' (added [0; 1; 2]%nat merged)) = true.
Proof.
  eexists _, _. split; [vm_compute; reflexivity|].
  assert (H : distinct_ids (map row_id [tx9; tx_again]) = true) by reflexivity.
  split; [exact H|].
  exact (proj2 (merge_transactions_added_ids [0; 1; 2]%nat [tx9; tx_again]
                  accounts1 _ w3 _ eq_refl) H).
Defined.

(** Two different transactions of the same unknown account: the same
    error, which carries the account id only. *)
Lemma merge_error_names_account_only :
  fst (merge_transactions [0; 1; 2]%nat [tx_ghost1] accounts1 w3)
    = inl (KeyError (VStr "ghost")) /\
  fst (merge_transactions [0; 1; 2]%nat [tx_ghost2] accounts1 w3)
    = inl (KeyError (VStr "ghost")) /\
  get tx_ghost1 "transaction_id" <> get tx_ghost2 "transaction_id".
Proof. repeat split; try reflexivity. discriminate. Qed.

Lemma merge_transactions_unknown_account_witness :
  transaction_ids [0; 1; 2]%nat w3
    = (inr [VStr "tx_123"; VStr "tx_124"; VStr "tx_125"], w3) /\
  hashable (get tx_ghost1 "transaction_id") = true /\
  vmem (get tx_ghost1 "transaction_id")
       [VStr "tx_123"; VStr "tx_124"; VStr "tx_125"] = false /\
  hashable (get tx_ghost1 "account_id") = true /\
  vlookup (get tx_ghost1 "account_id") accounts1 = None /\
  forall merged w',
    merge_transactions [0; 1; 2]%nat ([tx9] ++ tx_ghost1 :: [tx_again]) accounts1 w3
      <> (inr merged, w').
Proof.
  assert (H1 : transaction_ids [0; 1; 2]%nat w3
                 = (inr [VStr "tx_123"; VStr "tx_124"; VStr "tx_125"], w3))
    by reflexivity.
  assert (H2 : hashable (get tx_ghost1 "transaction_id") = true) by reflexivity.
  assert (H3 : vmem (get tx_ghost1 "transaction_id")
                    [VStr "tx_123"; VStr "tx_124"; VStr "tx_125"] = false)
    by reflexivity.
  assert (H4 : hashable (get tx_ghost1 "account_id") = true) by reflexivity.
  assert (H5 : vlookup (get tx_ghost1 "account_id") accounts1 = None) by reflexivity.
  exact (conj H1 (conj H2 (conj H3 (conj H4 (conj H5
           (proj1 (merge_transactions_unknown_account [0; 1; 2]%nat [tx9]
                     [tx_again] tx_ghost1 accounts1 w3 _ H1 H2 H3 H4 H5))))))).
Defined.

(** The model built from the example ledger, and the merged list with one
    new "COFFEE SHOP" row. *)
Definition model3 : category_model :=
  Eval vm_compute in
    match group_transactions_by_category [0; 1; 2]%nat w3 with
    | (inr m, _) => m
    | (inl _, _) => []
    end.

Example model3_counts :
  model_count model3 (VStr "COFFEE SHOP") (VStr "Dining") = 2 /\
  model_count model3 (VStr "COFFEE SHOP") (VStr "Groceries") = 1.
Proof. split; reflexivity. Qed.

Definition w4 : world :=
  Eval vm_compute in snd (merge_transactions [0; 1; 2]%nat [tx9] accounts1 w3).

Lemma w4_readable (a : addr) :
  In a [0; 1; 2; 3]%nat -> exists r, objects w4 !! a = Some r /\ readable r.
Proof.
  intros [<-|[<-|[<-|[<-|[]]]]]; (eexists; split; [reflexivity|]);
    intros H; try (vm_compute in H; discriminate H).
  exists (VStr "COFFEE SHOP"). split; reflexivity.
Qed.

Lemma apply_transaction_categories_infers_witness :
  (forall a, In a [0; 1; 2; 3]%nat ->
     exists r, objects w4 !! a = Some r /\ readable r) /\
  exists w',
    apply_transaction_categories [0; 1; 2; 3]%nat model3 w4
      = (inr [0; 1; 2; 3]%nat, w').
Proof.
  split; [exact w4_readable|].
  destruct (apply_transaction_categories_infers [0; 1; 2; 3]%nat model3 w4
              w4_readable) as (w' & Hrun & _).
  exists w'. exact Hrun.
Defined.

(** The spec's example: the new "COFFEE SHOP" row becomes Dining, and a
    row of a merchant the ledger has never seen stays without category. *)
Example coffee_shop_becomes_dining :
  exists w' r,
    apply_transaction_categories [0; 1; 2; 3]%nat model3 w4
      = (inr [0; 1; 2; 3]%nat, w') /\
    objects w' !! 3%nat = Some r /\ get r "category" = VStr "Dining".
Proof. eexists _, _. split; [vm_compute; reflexivity|]. split; reflexivity. Qed.

Example new_vendor_stays_uncategorized :
  exists merged w1 w' r,
    merge_transactions [0; 1; 2]%nat [tx "tx_903" "acc1" "NEW VENDOR XYZ"]
                       accounts1 w3 = (inr merged, w1) /\
    apply_transaction_categories merged model3 w1 = (inr merged, w') /\
    objects w' !! 3%nat = Some r /\ get r "category" = VNone.
Proof.
  eexists _, _, _, _. split; [vm_compute; reflexivity|].
  split; [vm_compute; reflexivity|]. split; reflexivity.
Qed.

Lemma apply_transaction_categories_keeps_witness :
  objects w4 !! 2%nat = Some (coffee "Groceries" "tx_125") /\
  truthy (get (coffee "Groceries" "tx_125") "category") = true /\
  forall txs' w',
    apply_transaction_categories [0; 1; 2; 3]%nat model3 w4 = (inr txs', w') ->
    objects w' !! 2%nat = Some (coffee "Groceries" "tx_125").
Proof.
  assert (H1 : objects w4 !! 2%nat = Some (coffee "Groceries" "tx_125"))
    by reflexivity.
  assert (H2 : truthy (get (coffee "Groceries" "tx_125") "category") = true)
    by reflexivity.
  exact (conj H1 (conj H2
           (proj2 (apply_transaction_categories_keeps [0; 1; 2; 3]%nat model3 w4
                     2%nat (coffee "Groceries" "tx_125") H1 H2)))).
Defined.

(** Records for the output file of [cfg0], whose columns are "a", "b". *)
Definition r_ab : dict := [("a", VNum 1); ("b", VNum 2)].
Definition r_a : dict := [("a", VNum 1)].
Definition r_abc : dict := [("a", VNum 1); ("b", VNum 2); ("c", VNum 3)].

(** A second record with one field only is written, padded; a second
    record with a third field fails after the header and the first record
    are in the file. *)
Lemma save_results_to_csv_counts_first_only :
  length r_a <> length (FIELDNAMES cfg0) /\
  save_results_to_csv cfg0 [0; 1]%nat (World [r_ab; r_a] [])
    = (inr tt, World [r_ab; r_a]
                 [[VStr "a"; VStr "b"]; [VNum 1; VNum 2]; [VNum 1; VStr ""]]) /\
  length r_abc <> length (FIELDNAMES cfg0) /\
  save_results_to_csv cfg0 [0; 1]%nat (World [r_ab; r_abc] [])
    = (inl ValueError, World [r_ab; r_abc]
                         [[VStr "a"; VStr "b"]; [VNum 1; VNum 2]]).
Proof. repeat split; try reflexivity; discriminate. Qed.

Lemma save_results_to_csv_guard_witness :
  first_record_fits cfg0 w3 [0; 1; 2]%nat = false /\
  exists e, save_results_to_csv cfg0 [0; 1; 2]%nat w3 = (inl e, w3).
Proof.
  assert (H : first_record_fits cfg0 w3 [0; 1; 2]%nat = false) by reflexivity.
  split; [exact H|].
  destruct (save_results_to_csv_guard cfg0 [0; 1; 2]%nat w3 H) as (e & He & _).
  exists e. exact He.
Defined.

(** ** C6: the start date of the fetch *)

Lemma py_gt_pure (a b : value) (w w' : world) (x : exn + bool) :
  py_gt a b w = (x, w') -> w' = w.
Proof.
  destruct a, b; cbv [py_gt num_of ret raise]; congruence.
Qed.

(** The row behind [fst best] is a row of [l] dated [snd best]. *)
Definition dated_in (w : world) (l : list addr) (best : addr * value) : Prop :=
  In (fst best) l /\
  exists r, objects w !! fst best = Some r /\ lookup_key "date" r = Some (snd best).

Lemma max_step_inv (w w' : world) (l : list addr) (best best' : addr * value)
    (a : addr) :
  In a l -> dated_in w l best ->
  max_step best a w = (inr best', w') ->
  w' = w /\ dated_in w l best'.
Proof.
  intros Ha Hbest. unfold max_step. rewrite bind_run. unfold deref at 1.
  destruct (objects w !! a) as [r|] eqn:Hr; [|discriminate].
  rewrite bind_run. unfold getitem.
  destruct (lookup_key "date" r) as [key|] eqn:Hkey; [|discriminate].
  cbn [ret]. rewrite bind_run.
  destruct (py_gt key (snd best) w) as [[e|gt] w1] eqn:Hgt; [discriminate|].
  apply py_gt_pure in Hgt as ->.
  intros [= <- <-]. split; [reflexivity|].
  destruct gt; [|assumption].
  split; [exact Ha|]. exists r. auto.
Qed.

Lemma max_loop_inv (w w' : world) (l rest : list addr) (best best' : addr * value) :
  (forall a, In a rest -> In a l) -> dated_in w l best ->
  for_each max_step rest best w = (inr best', w') ->
  w' = w /\ dated_in w l best'.
Proof.
  revert best. induction rest as [|a rest IH]; intros best Hsub Hbest; cbn [for_each].
  - intros [= <- <-]. auto.
  - rewrite bind_run.
    destruct (max_step best a w) as [[e|best1] w1] eqn:Hstep; [discriminate|].
    destruct (max_step_inv _ _ l _ _ _ (Hsub a (or_introl eq_refl)) Hbest Hstep)
      as [-> Hbest1].
    apply IH; [|assumption]. intros a' Ha'. apply Hsub. now right.
Qed.

(** The start date is always the date of a row of the ledger, as
    [strftime] prints it. *)
Lemma start_date_in_ledger (existing : list addr) (w w' : world) (s : string) :
  start_date existing w = (inr s, w') ->
  w' = w /\
  exists a r d, In a existing /\ objects w !! a = Some r /\
                lookup_key "date" r = Some d /\ strftime_ymd d w = (inr s, w).
Proof.
  unfold start_date. rewrite bind_run. unfold max_by_date.
  destruct existing as [|a0 rest]; [discriminate|].
  rewrite bind_run. unfold deref at 1.
  destruct (objects w !! a0) as [r0|] eqn:Hr0; [|discriminate].
  rewrite bind_run. unfold getitem at 1.
  destruct (lookup_key "date" r0) as [k0|] eqn:Hk0; [|discriminate].
  cbn [ret]. rewrite bind_run.
  destruct (for_each max_step rest (a0, k0) w) as [[e|best] w1] eqn:Hloop;
    [discriminate|].
  assert (H0 : dated_in w (a0 :: rest) (a0, k0)).
  { split; [now left|]. exists r0. auto. }
  destruct (max_loop_inv w w1 (a0 :: rest) rest _ _
              (fun a Ha => or_intror Ha) H0 Hloop) as [-> (Hin & r & Hr & Hk)].
  cbn [ret]. rewrite bind_run. unfold deref at 1. rewrite Hr.
  rewrite bind_run. unfold getitem. rewrite Hk. cbn [ret].
  intros Hfmt.
  assert (w' = w) as ->.
  { unfold strftime_ymd in Hfmt.
    destruct (snd best); cbv [ret raise] in Hfmt; now injection Hfmt. }
  split; [reflexivity|]. exists (fst best), r, (snd best). auto.
Qed.


Definition ledger_dates : list dict :=
  [setitem "date" (VDate (Datetime 2020 1 10 0 0 0 0)) (coffee "Dining" "tx_1");
   coffee "Dining" "tx_2";
   setitem "date" (VDate (Datetime 2019 12 31 0 0 0 0)) (coffee "Dining" "tx_3")].

(** C6 - On a ledger whose latest date is 2020-01-15 the driver computes
    the start date "2020-01-15", the latest date itself, and not the day
    after it; and that is the date it queries the fetch adapter with,
    whatever the adapter. *)
Theorem start_date_is_latest_date :
  start_date [0; 1; 2]%nat (World ledger_dates [])
    = (inr "2020-01-15", World ledger_dates []) /\
  "2020-01-15" <> "2020-01-16" /\
  forall (query_plaid_transactions : string -> list dict * list dict) (cfg : config),
    main query_plaid_transactions cfg [0; 1; 2]%nat (World ledger_dates [])
    = main (fun _ => query_plaid_transactions "2020-01-15") cfg [0; 1; 2]%nat
           (World ledger_dates []).
Proof.
  assert (Hstart : start_date [0; 1; 2]%nat (World ledger_dates [])
                   = (inr "2020-01-15", World ledger_dates [])) by reflexivity.
  split; [exact Hstart|]. split; [discriminate|].
  intros q cfg. unfold main. rewrite !bind_run.
  destruct (group_transactions_by_category [0; 1; 2]%nat (World ledger_dates []))
    as [[e|category_data] w1] eqn:Hgroup; [reflexivity|].
  assert (w1 = World ledger_dates []) as ->
    by (vm_compute in Hgroup; injection Hgroup as _ <-; reflexivity).
  rewrite !bind_run, Hstart. reflexivity.
Qed.

(** ** C7: a fetched transaction without location *)

(** C7 - A fetched transaction without a [location] is merged, and its row
    has [None] for city, state, zip and country, but the empty dict for
    [address]: the default of that one lookup is [{}]. *)
Theorem merge_missing_location_address :
  exists merged w' r,
    lookup_key "location" tx9 = None /\
    merge_transactions [0; 1; 2]%nat [tx9] accounts1 w3 = (inr merged, w') /\
    added [0; 1; 2]%nat merged = [3%nat] /\
    objects w' !! 3%nat = Some r /\
    get r "address" = VDict [] /\ get r "address" <> VNone /\
    get r "city" = VNone /\ get r "state" = VNone /\
    get r "zip" = VNone /\ get r "country" = VNone.
Proof.
  eexists _, _, _. split; [reflexivity|]. split; [vm_compute; reflexivity|].
  repeat split; try reflexivity. discriminate.
Qed.

(** * Further properties of the code *)

(** ** The loop body of the merge, in one equation *)

(** [', '.join(transaction.get('category') or [])] *)
Definition joined_category (t : dict) : exn + string :=
  match (if truthy (get t "category") then get t "category" else VList []) with
  | VList l =>
      match strings_of l with
      | Some parts => inr (String.concat ", " parts)
      | None => inl TypeError
      end
  | VStr s => inr (String.concat ", " (chars s))
  | VDict d => inr (String.concat ", " (map fst d))
  | _ => inl TypeError
  end.

(** The [location] of a fetched transaction can be read: it is missing or
    it is a dict. *)
Definition location_ok (t : dict) : bool :=
  match get_or t "location" (VDict []) with
  | VDict _ => true
  | _ => false
  end.

Lemma accepted_row_eq (ids : list value) (account_data : vmap dict) (t : dict) :
  accepted_row ids account_data t =
  if hashable (get t "transaction_id") then
    if vmem (get t "transaction_id") ids then inr None
    else if hashable (get t "account_id") then
      match vlookup (get t "account_id") account_data with
      | None => inl (KeyError (get t "account_id"))
      | Some account =>
          if py_eq (get (update [] account) "bank_account_number") (VStr "7550")
          then inr None
          else match joined_category t with
               | inl e => inl e
               | inr pc =>
                   if location_ok t then
                     inr (Some (normalized t account pc
                                  (location_of t "address" (VDict []))
                                  (location_of t "city" VNone)
                                  (location_of t "state" VNone)
                                  (location_of t "zip" VNone)
                                  (location_of t "country" VNone)))
                   else inl AttributeError
               end
      end
    else inl TypeError
  else inl TypeError.
Proof.
  unfold joined_category, location_ok, location_of.
  merge_cases t ids account_data by reflexivity; reflexivity.
Qed.

(** A transaction the body leaves out changes nothing in the run. *)
Lemma merge_drop_eq (existing : list addr) (pre post : list dict) (t : dict)
    (account_data : vmap dict) (w : world) :
  (forall ids, accepted_row ids account_data t = inr None) ->
  merge_transactions existing (pre ++ t :: post) account_data w =
  merge_transactions existing (pre ++ post) account_data w.
Proof.
  intros Hnone. unfold merge_transactions. rewrite !bind_run.
  destruct (transaction_ids existing w) as [[e|ids] w1]; [reflexivity|].
  rewrite !for_each_app.
  destruct (for_each _ pre existing w1) as [[e|m1] w2]; [reflexivity|].
  cbn [for_each]. now rewrite bind_run, merge_one_run, Hnone.
Qed.

(** An error of the body, after a prefix that went through, is the error
    of the merge; the store is the one the prefix left. *)
Lemma merge_error_at (existing : list addr) (pre post : list dict) (t : dict)
    (account_data : vmap dict) (w w1 : world) (ids : list value)
    (m1 : list addr) (e : exn) :
  transaction_ids existing w = (inr ids, w) ->
  for_each (merge_one ids account_data) pre existing w = (inr m1, w1) ->
  accepted_row ids account_data t = inl e ->
  merge_transactions existing (pre ++ t :: post) account_data w = (inl e, w1).
Proof.
  intros Hids Hpre He. unfold merge_transactions.
  rewrite bind_run, Hids, for_each_app, Hpre. cbn [for_each].
  now rewrite bind_run, merge_one_run, He.
Qed.

(** ** X1: the excluded account *)

(** X1 - A fetched transaction of an account whose [bank_account_number]
    is '7550' is left out: the merge runs as if it were not in the fetch,
    whatever its other fields. *)
Theorem merge_transactions_excludes_7550 (existing : list addr)
    (pre post : list dict) (t account : dict) (account_data : vmap dict)
    (w : world) :
  hashable (get t "transaction_id") = true ->
  hashable (get t "account_id") = true ->
  vlookup (get t "account_id") account_data = Some account ->
  py_eq (get (update [] account) "bank_account_number") (VStr "7550") = true ->
  merge_transactions existing (pre ++ t :: post) account_data w =
  merge_transactions existing (pre ++ post) account_data w.
Proof.
  intros Htid Hacc Hlook Hmask. apply merge_drop_eq. intros ids.
  rewrite accepted_row_eq, Htid, Hacc, Hlook, Hmask.
  now destruct (vmem (get t "transaction_id") ids).
Qed.

(** ** X2: when the merge returns *)

(** [', '.join] can be applied to the categories of the transaction. *)
Definition category_ok (t : dict) : bool :=
  match joined_category t with
  | inr _ => true
  | inl _ => false
  end.

(** The body goes through for the transaction. *)
Definition txn_ok (ids : list value) (account_data : vmap dict) (t : dict) : bool :=
  hashable (get t "transaction_id") &&
  (vmem (get t "transaction_id") ids ||
   (hashable (get t "account_id") &&
    match vlookup (get t "account_id") account_data with
    | None => false
    | Some account =>
        py_eq (get (update [] account) "bank_account_number") (VStr "7550")
        || (category_ok t && location_ok t)
    end)).

Lemma txn_ok_accepted (ids : list value) (account_data : vmap dict) (t : dict) :
  txn_ok ids account_data t = true <->
  exists o, accepted_row ids account_data t = inr o.
Proof.
  rewrite accepted_row_eq. unfold txn_ok, category_ok.
  destruct (hashable (get t "transaction_id")); cbn [andb];
    [|split; [discriminate | intros [o H]; discriminate]].
  destruct (vmem (get t "transaction_id") ids); cbn [orb]; [split; eauto|].
  destruct (hashable (get t "account_id")); cbn [andb];
    [|split; [discriminate | intros [o H]; discriminate]].
  destruct (vlookup (get t "account_id") account_data) as [account|];
    [|split; [discriminate | intros [o H]; discriminate]].
  destruct (py_eq _ _); cbn [orb]; [split; eauto|].
  destruct (joined_category t) as [e|pc]; cbn [andb];
    [split; [discriminate | intros [o H]; discriminate]|].
  destruct (location_ok t); [split; eauto|].
  split; [discriminate | intros [o H]; discriminate].
Qed.

(** The identifier of every listed row can be read and hashed. *)
Definition ids_ok (w : world) (existing : list addr) : bool :=
  forallb (fun a => match objects w !! a with
                    | Some r => hashable (get r "transaction_id")
                    | None => false
                    end) existing.

Lemma ids_ok_iff (w : world) (existing : list addr) :
  ids_ok w existing = true <-> exists ids, Forall2 (id_at w) existing ids.
Proof.
  unfold ids_ok. induction existing as [|a existing IH]; cbn [forallb].
  - split; [exists []; constructor | reflexivity].
  - rewrite andb_true_iff, IH. split.
    + intros [Ha (ids & Hids)].
      destruct (objects w !! a) as [r|] eqn:Hr; [|discriminate].
      exists (get r "transaction_id" :: ids). constructor; [|assumption].
      exists r. auto.
    + intros (ids & Hids).
      inversion Hids as [|? v ? ids' (r & Hr & -> & Hh) Hrest]; subst.
      rewrite Hr. split; [assumption | eauto].
Qed.

(** X2 - [merge_transactions] returns a list exactly when the identifier
    of every ledger row can be hashed and, for every fetched transaction,
    the identifier can be hashed and either it is in the ledger, or the
    account id can be hashed and is known and either the account is the
    excluded one or the categories can be joined and the location is
    missing or a dict. *)
Theorem merge_transactions_returns_iff (existing : list addr) (new : list dict)
    (account_data : vmap dict) (w : world) :
  (exists merged w',
     merge_transactions existing new account_data w = (inr merged, w'))
  <-> ids_ok w existing = true /\
      forall ids, transaction_ids existing w = (inr ids, w) ->
                  forallb (txn_ok ids account_data) new = true.
Proof.
  split.
  - intros (merged & w' & H).
    apply merge_transactions_run in H as (ids & outs & Hi & Ho & _).
    split; [apply ids_ok_iff; eauto|].
    intros ids' Hids'.
    assert (Hids : transaction_ids existing w = (inr ids, w))
      by (apply transaction_ids_run; auto).
    assert (ids' = ids) as -> by congruence.
    apply forallb_forall. intros t Ht. apply txn_ok_accepted.
    clear -Ho Ht. induction Ho as [|t' o new outs H HF IH]; [destruct Ht|].
    destruct Ht as [->|Ht]; [exists o; exact H | auto].
  - intros [Hok Hnew]. apply ids_ok_iff in Hok as (ids & Hids).
    assert (Hrun : transaction_ids existing w = (inr ids, w))
      by (apply transaction_ids_run; auto).
    specialize (Hnew ids Hrun).
    assert (Houts : exists outs, Forall2 (outcome_of ids account_data) new outs).
    { clear -Hnew. induction new as [|t new IH]; [exists []; constructor|].
      cbn [forallb] in Hnew. apply andb_true_iff in Hnew as [Ht Hrest].
      apply txn_ok_accepted in Ht as (o & Ho).
      destruct (IH Hrest) as (outs & Houts). exists (o :: outs). now constructor. }
    destruct Houts as (outs & Houts).
    eexists _, _. apply merge_transactions_run. eauto 10.
Qed.

(** ** X3: fields of a fetched transaction the body cannot read *)

(** X3 - A fetched transaction that reaches the construction of its row
    (new identifier, known account that is not the excluded one) makes the
    merge fail with [TypeError] when its category list holds an item that
    is not a string, and with [AttributeError] when its categories can be
    joined but its [location] is present and is not a dict (a JSON null,
    say); the rows added before it stay in the store and no list is
    returned. *)
Theorem merge_transactions_malformed_fields (existing : list addr)
    (pre post : list dict) (t account : dict) (account_data : vmap dict)
    (w w1 : world) (ids : list value) (m1 : list addr) :
  transaction_ids existing w = (inr ids, w) ->
  for_each (merge_one ids account_data) pre existing w = (inr m1, w1) ->
  hashable (get t "transaction_id") = true ->
  vmem (get t "transaction_id") ids = false ->
  hashable (get t "account_id") = true ->
  vlookup (get t "account_id") account_data = Some account ->
  py_eq (get (update [] account) "bank_account_number") (VStr "7550") = false ->
  (forall l, get t "category" = VList l -> strings_of l = None ->
     merge_transactions existing (pre ++ t :: post) account_data w
       = (inl TypeError, w1)) /\
  (forall v, category_ok t = true -> lookup_key "location" t = Some v ->
     (forall d, v <> VDict d) ->
     merge_transactions existing (pre ++ t :: post) account_data w
       = (inl AttributeError, w1)).
Proof.
  intros Hids Hpre Htid Hmem Hacc Hlook Hmask. split.
  - intros l Hcat Hl. eapply merge_error_at; [eassumption..|].
    rewrite accepted_row_eq, Htid, Hmem, Hacc, Hlook, Hmask.
    unfold joined_category. rewrite Hcat.
    destruct l as [|x l]; [discriminate|]. cbn [truthy]. now rewrite Hl.
  - intros v Hcat Hloc Hv. eapply merge_error_at; [eassumption..|].
    rewrite accepted_row_eq, Htid, Hmem, Hacc, Hlook, Hmask.
    unfold category_ok in Hcat.
    destruct (joined_category t) as [e|pc]; [discriminate|].
    unfold location_ok, get_or. rewrite Hloc.
    destruct v; try reflexivity. now destruct (Hv d).
Qed.

(** ** The resolver, as a function of the response *)

(** [CONFIG["BANK_NAME_MAPPING"].get(mask)] for a mask that can be hashed *)
Definition bank_name_of (cfg : config) (mask : value) : value :=
  match mask with
  | VStr k => get (BANK_NAME_MAPPING cfg) k
  | _ => VNone
  end.

(** The record of an account, with the name of its mask. *)
Definition record_of (cfg : config) (account : dict) : dict :=
  account_record (bank_name_of cfg (get account "mask")) account.

(** The id and the mask of the account can be hashed. *)
Definition account_ok (account : dict) : bool :=
  hashable (get account "account_id") && hashable (get account "mask").

Lemma add_account_eq (cfg : config) (account_dict : vmap dict) (account : dict)
    (w : world) :
  add_account cfg account_dict account w =
  if account_ok account
  then (inr (vset (get account "account_id") (record_of cfg account) account_dict), w)
  else (inl TypeError, w).
Proof.
  rewrite add_account_run. unfold account_ok, record_of, bank_name, hash_check.
  destruct (hashable (get account "account_id")); [|reflexivity].
  rewrite bind_run.
  destruct (hashable (get account "mask")); reflexivity.
Qed.

(** The resolver the loop builds from [acc]. *)
Definition resolver_from (cfg : config) (acc : vmap dict) (accounts : list dict)
  : vmap dict :=
  fold_left (fun ad account =>
               vset (get account "account_id") (record_of cfg account) ad)
            accounts acc.

Lemma build_loop_eq (cfg : config) (accounts : list dict) (acc : vmap dict)
    (w : world) :
  for_each (add_account cfg) accounts acc w =
  if forallb account_ok accounts
  then (inr (resolver_from cfg acc accounts), w)
  else (inl TypeError, w).
Proof.
  revert acc. induction accounts as [|account accounts IH]; intros acc;
    cbn [for_each forallb]; [reflexivity|].
  rewrite bind_run, add_account_eq.
  destruct (account_ok account); [|reflexivity].
  cbn [andb]. apply IH.
Qed.

(** The record the resolver gives for a key: that of the last account of
    the response with that id. *)
Definition last_record (cfg : config) (q : value) (found : option dict)
    (accounts : list dict) : option dict :=
  fold_left (fun found account =>
               if py_eq q (get account "account_id")
               then Some (record_of cfg account) else found)
            accounts found.

Lemma vlookup_resolver (cfg : config) (q : value) (accounts : list dict)
    (acc : vmap dict) :
  vlookup q (resolver_from cfg acc accounts)
  = last_record cfg q (vlookup q acc) accounts.
Proof.
  revert acc. induction accounts as [|account accounts IH]; intros acc;
    [reflexivity|].
  cbn [resolver_from last_record fold_left].
  fold (resolver_from cfg (vset (get account "account_id") (record_of cfg account) acc)
                      accounts).
  rewrite IH, vlookup_vset. reflexivity.
Qed.

Lemma last_record_none (cfg : config) (q : value) (found : option dict)
    (accounts : list dict) :
  (forall account, In account accounts ->
     py_eq q (get account "account_id") = false) ->
  last_record cfg q found accounts = found.
Proof.
  revert found. induction accounts as [|a accounts IH]; intros found H;
    [reflexivity|].
  cbn [last_record fold_left]. rewrite (H a) by now left.
  apply IH. intros a' Ha'. apply H. now right.
Qed.

Lemma last_record_some (cfg : config) (q : value) (found : option dict)
    (accounts : list dict) (d : dict) :
  last_record cfg q found accounts = Some d ->
  found = Some d \/
  exists account, In account accounts /\
    py_eq q (get account "account_id") = true /\ d = record_of cfg account.
Proof.
  revert found. induction accounts as [|a accounts IH]; intros found;
    [now left|].
  cbn [last_record fold_left]. intros H.
  destruct (IH _ H) as [Hf|(account & Hin & Hq & Hd)].
  - destruct (py_eq q (get a "account_id")) eqn:E; [|now left].
    right. exists a. split; [now left|]. split; [assumption | congruence].
  - right. exists account. split; [now right | auto].
Qed.

Lemma last_record_none_inv (cfg : config) (q : value) (found : option dict)
    (accounts : list dict) :
  last_record cfg q found accounts = None ->
  found = None /\
  forall account, In account accounts ->
    py_eq q (get account "account_id") = false.
Proof.
  revert found. induction accounts as [|a accounts IH]; intros found.
  - intros H. split; [exact H | intros ? []].
  - cbn [last_record fold_left]. intros H.
    destruct (IH _ H) as [Hf Hrest].
    destruct (py_eq q (get a "account_id")) eqn:E; [discriminate|].
    split; [exact Hf|]. intros account [<-|Hin]; auto.
Qed.

Lemma build_account_details_eq (cfg : config) (accounts : list dict) (w : world) :
  build_account_details cfg accounts w =
  if forallb account_ok accounts
  then (inr (resolver_from cfg [] accounts), w)
  else (inl TypeError, w).
Proof. apply build_loop_eq. Qed.

(** ** X4: when build_account_details returns *)

(** X4 - [build_account_details] returns a resolver exactly when the id
    and the mask of every account can be hashed, and raises [TypeError]
    otherwise; in both cases the store and the output file are what they
    were. *)
Theorem build_account_details_returns (cfg : config) (accounts : list dict)
    (w : world) :
  exists res,
    build_account_details cfg accounts w = (res, w) /\
    (forallb account_ok accounts = true -> exists account_data, res = inr account_data) /\
    (forallb account_ok accounts = false -> res = inl TypeError).
Proof.
  rewrite build_account_details_eq.
  destruct (forallb account_ok accounts).
  - eexists. split; [reflexivity|]. split; [eauto | discriminate].
  - eexists. split; [reflexivity|]. split; [discriminate | reflexivity].
Qed.

(** ** X5: looking an account up in the resolver *)

(** X5 - In the resolver built from a response, the id of an account
    (or any key equal to it) leads to the record of the last account of the
    response with that id: mask, the name the configuration gives for the
    mask ([None] when the mask is not a key of the mapping), the type twice
    and the subtype. *)
Theorem build_account_details_lookup (cfg : config) (pre post : list dict)
    (account : dict) (account_data : vmap dict) (w w' : world) (q : value) :
  build_account_details cfg (pre ++ account :: post) w = (inr account_data, w') ->
  (forall account', In account' post ->
     py_eq q (get account' "account_id") = false) ->
  py_eq q (get account "account_id") = true ->
  vlookup q account_data =
    Some [("bank_account_number", get account "mask");
          ("account_name", bank_name_of cfg (get account "mask"));
          ("institution_type", get account "type");
          ("account_type", get account "type");
          ("account_subtype", get account "subtype")].
Proof.
  rewrite build_account_details_eq.
  destruct (forallb account_ok (pre ++ account :: post)); [|discriminate].
  intros [= <- <-] Hpost Hq.
  rewrite vlookup_resolver. unfold last_record. rewrite fold_left_app.
  cbn [fold_left]. rewrite Hq.
  exact (last_record_none cfg q _ post Hpost).
Qed.

(** ** X6: the keys of the resolver *)

(** X6 - A key is resolved exactly when it equals the id of an account of
    the response, and what it resolves to is the record of such an
    account. *)
Theorem build_account_details_keys (cfg : config) (accounts : list dict)
    (account_data : vmap dict) (w w' : world) (q : value) :
  build_account_details cfg accounts w = (inr account_data, w') ->
  (vlookup q account_data = None <->
   forall account, In account accounts ->
     py_eq q (get account "account_id") = false) /\
  (forall d, vlookup q account_data = Some d ->
     exists account, In account accounts /\
       py_eq q (get account "account_id") = true /\
       d = record_of cfg account).
Proof.
  rewrite build_account_details_eq.
  destruct (forallb account_ok accounts); [|discriminate].
  intros [= <- <-]. rewrite vlookup_resolver. cbn [vlookup]. split.
  - split.
    + intros Hnone. now apply last_record_none_inv in Hnone.
    + intros H. now apply last_record_none.
  - intros d Hd. apply last_record_some in Hd as [Hd|Hd]; [discriminate | exact Hd].
Qed.

(** ** X7: the fields of an added row *)

(** The row the merge makes of a fetched transaction [t] of the account
    [account], [pc] being the joined categories. *)
Definition merged_row (cfg : config) (t account : dict) (pc : string) : dict :=
  [("bank_account_number", get account "mask");
   ("account_name", bank_name_of cfg (get account "mask"));
   ("institution_type", get account "type");
   ("account_type", get account "type");
   ("account_subtype", get account "subtype");
   ("date", get t "date");
   ("description", get t "name");
   ("amount", get t "amount");
   ("plaid_category", VStr pc);
   ("transaction_type", get t "transaction_type");
   ("address", location_of t "address" (VDict []));
   ("city", location_of t "city" VNone);
   ("state", location_of t "state" VNone);
   ("zip", location_of t "zip" VNone);
   ("country", location_of t "country" VNone);
   ("pending", get t "pending");
   ("transaction_id", get t "transaction_id")].

Lemma normalized_record (cfg : config) (t account : dict) (pc : string) :
  normalized t (record_of cfg account) pc
    (location_of t "address" (VDict [])) (location_of t "city" VNone)
    (location_of t "state" VNone) (location_of t "zip" VNone)
    (location_of t "country" VNone)
  = merged_row cfg t account pc.
Proof. reflexivity. Qed.

Lemma accepted_row_fields (ids : list value) (account_data : vmap dict) (t r : dict) :
  accepted_row ids account_data t = inr (Some r) ->
  exists account pc,
    vlookup (get t "account_id") account_data = Some account /\
    joined_category t = inr pc /\
    r = normalized t account pc
          (location_of t "address" (VDict [])) (location_of t "city" VNone)
          (location_of t "state" VNone) (location_of t "zip" VNone)
          (location_of t "country" VNone).
Proof.
  rewrite accepted_row_eq.
  destruct (hashable (get t "transaction_id")); [|discriminate].
  destruct (vmem (get t "transaction_id") ids); [discriminate|].
  destruct (hashable (get t "account_id")); [|discriminate].
  destruct (vlookup (get t "account_id") account_data) as [account|]; [|discriminate].
  destruct (py_eq _ _); [discriminate|].
  destruct (joined_category t) as [e|pc]; [discriminate|].
  destruct (location_ok t); [|discriminate].
  intros [= <-]. eauto.
Qed.

Lemma added_rows_shape (cfg : config) (accounts : list dict)
    (account_data : vmap dict) (w0 w1 : world)
    (existing : list addr) (new : list dict) (merged : list addr) (w w' : world)
    (a : addr) :
  build_account_details cfg accounts w0 = (inr account_data, w1) ->
  merge_transactions existing new account_data w = (inr merged, w') ->
  In a (added existing merged) ->
  exists t account pc,
    In t new /\ In account accounts /\
    py_eq (get t "account_id") (get account "account_id") = true /\
    joined_category t = inr pc /\
    objects w' !! a = Some (merged_row cfg t account pc).
Proof.
  intros Hbuild Hmerge Ha.
  apply merge_transactions_run in Hmerge as (ids & outs & Hi & Ho & -> & ->).
  rewrite added_app in Ha.
  apply In_seq_rows in Ha as (r & Hr & Hin).
  destruct (outcomes_rows _ _ _ _ _ Ho Hin) as (t & Ht & Hacc).
  apply accepted_row_fields in Hacc as (d & pc & Hlook & Hpc & ->).
  rewrite build_account_details_eq in Hbuild.
  destruct (forallb account_ok accounts); [|discriminate].
  injection Hbuild as <- <-.
  rewrite vlookup_resolver in Hlook. cbn [vlookup] in Hlook.
  apply last_record_some in Hlook as [Hd|(account & Hacc & Hq & ->)];
    [discriminate|].
  exists t, account, pc. rewrite <- normalized_record. auto 10.
Qed.

(** X7 - With the resolver of a response, every row a merge adds comes
    from a fetched transaction and an account of the response with the
    transaction's account id, and has these seventeen fields in this order:
    the five of the account record, then [date], [description] (the
    transaction's [name]), [amount], [plaid_category] (the joined
    categories), [transaction_type], the five location fields, [pending]
    and [transaction_id]; it has no [category] field. *)
Theorem added_row_fields (cfg : config) (accounts : list dict)
    (account_data : vmap dict) (w0 w1 : world)
    (existing : list addr) (new : list dict) (merged : list addr) (w w' : world) :
  build_account_details cfg accounts w0 = (inr account_data, w1) ->
  merge_transactions existing new account_data w = (inr merged, w') ->
  forall a, In a (added existing merged) ->
    exists t account pc,
      In t new /\ In account accounts /\
      py_eq (get t "account_id") (get account "account_id") = true /\
      joined_category t = inr pc /\
      objects w' !! a = Some (merged_row cfg t account pc) /\
      lookup_key "category" (merged_row cfg t account pc) = None /\
      length (merged_row cfg t account pc) = 17%nat.
Proof.
  intros Hbuild Hmerge a Ha.
  destruct (added_rows_shape _ _ _ _ _ _ _ _ _ _ _ Hbuild Hmerge Ha)
    as (t & account & pc & H1 & H2 & H3 & H4 & H5).
  exists t, account, pc. auto 10.
Qed.

(** ** X8: an added row after the inference *)

Lemma infer_merged_row (cfg : config) (category_data : category_model)
    (t account : dict) (pc : string) :
  infer_row category_data (merged_row cfg t account pc)
  = merged_row cfg t account pc
    ++ [("category", top_category category_data (get t "name"))].
Proof. reflexivity. Qed.

(** X8 - After the merge and the inference, every added row has eighteen
    fields: the seventeen of the merge, in their order, then [category],
    which holds a category the model counts most for the transaction's
    name, or [None] when the model has nothing for it. *)
Theorem added_row_after_inference (cfg : config) (accounts : list dict)
    (account_data : vmap dict) (w0 w1 : world)
    (existing : list addr) (new : list dict) (merged merged' : list addr)
    (category_data : category_model) (w w' w'' : world) :
  build_account_details cfg accounts w0 = (inr account_data, w1) ->
  merge_transactions existing new account_data w = (inr merged, w') ->
  apply_transaction_categories merged category_data w' = (inr merged', w'') ->
  forall a, In a (added existing merged) ->
    exists t account pc c,
      In t new /\ In account accounts /\
      objects w'' !! a
        = Some (merged_row cfg t account pc ++ [("category", c)]) /\
      match vlookup (get t "name") category_data with
      | Some (x :: cnt) =>
          exists n, In (c, n) (x :: cnt) /\
                    forall k' n', In (k', n') (x :: cnt) -> (n' <= n)%Z
      | _ => c = VNone
      end.
Proof.
  intros Hbuild Hmerge Happly a Ha.
  destruct (added_rows_shape _ _ _ _ _ _ _ _ _ _ _ Hbuild Hmerge Ha)
    as (t & account & pc & H1 & H2 & _ & _ & Hrow).
  rewrite apply_transaction_categories_run in Happly.
  destruct (apply_loop category_data merged w') as [[e|u] w2] eqn:Hloop;
    [discriminate|].
  injection Happly as _ <-.
  destruct (apply_loop_inv _ _ _ _ _ Hloop) as [_ Hrows].
  destruct (Hrows a _ Hrow) as [Hin _].
  assert (Hmem : In a merged).
  { unfold added in Ha. rewrite <- (take_drop (length existing) merged).
    apply in_or_app. now right. }
  specialize (Hin Hmem). rewrite infer_merged_row in Hin.
  exists t, account, pc, (top_category category_data (get t "name")).
  repeat split; try assumption.
  unfold top_category.
  destruct (vlookup (get t "name") category_data) as [[|x cnt]|]; try reflexivity.
  destruct (most_common_head (x :: cnt)) as (k & n & rest & -> & Hin' & Hmax);
    [discriminate|].
  exists n. auto.
Qed.

(** ** X9: what the frequency model counts *)

(** X9 - [group_transactions_by_category] leaves the store as it was, and
    the count its model holds for a description and a category is the
    number of listed rows that have a category, that description and that
    category (Python equality); rows without category count for nothing. *)
Theorem group_counts_rows (txs : list addr) (m : category_model) (w w' : world) :
  group_transactions_by_category txs w = (inr m, w') ->
  w' = w /\
  forall d c,
    default 0 (vlookup c (default [] (vlookup d m))) = tally w d c txs.
Proof.
  intros H. apply group_loop_counts in H as [-> Hm].
  split; [reflexivity|]. intros d c.
  change (model_count m d c = tally w d c txs). rewrite Hm. reflexivity.
Qed.

(** ** X10: when group_transactions_by_category returns *)

(** A row the loop can count: it has a [category] field and, when that is
    not empty, a [description] field, both of which can be hashed. *)
Definition row_countable (r : dict) : bool :=
  match lookup_key "category" r with
  | None => false
  | Some c =>
      if truthy c then
        match lookup_key "description" r with
        | None => false
        | Some d => hashable d && hashable c
        end
      else true
  end.

Definition countable_at (w : world) (a : addr) : bool :=
  match objects w !! a with
  | Some r => row_countable r
  | None => false
  end.

Lemma count_row_returns (m : category_model) (a : addr) (w : world) :
  exists res, count_row m a w = (res, w) /\
              (countable_at w a = true <-> exists m', res = inr m').
Proof.
  unfold count_row, countable_at, row_countable.
  rewrite bind_run. unfold deref at 1.
  destruct (objects w !! a) as [r|]; [|eexists; split; [reflexivity|]].
  2: { split; [discriminate | intros [m' H]; discriminate]. }
  rewrite bind_run. unfold getitem at 1.
  destruct (lookup_key "category" r) as [c|]; [|eexists; split; [reflexivity|]].
  2: { split; [discriminate | intros [m' H]; discriminate]. }
  cbn [ret]. destruct (truthy c).
  - rewrite bind_run. unfold getitem.
    destruct (lookup_key "description" r) as [d|]; [|eexists; split; [reflexivity|]].
    2: { split; [discriminate | intros [m' H]; discriminate]. }
    cbn [ret]. unfold count_up. rewrite !bind_run. unfold hash_check.
    destruct (hashable d); cbn [ret raise andb].
    + rewrite bind_run. destruct (hashable c); cbn [ret raise].
      * eexists. split; [reflexivity|]. split; eauto.
      * eexists. split; [reflexivity|].
        split; [discriminate | intros [m' H]; discriminate].
    + eexists. split; [reflexivity|].
      split; [discriminate | intros [m' H]; discriminate].
  - eexists. split; [reflexivity|]. split; eauto.
Qed.

Lemma group_loop_returns (txs : list addr) (acc : category_model) (w : world) :
  exists res, for_each count_row txs acc w = (res, w) /\
              (forallb (countable_at w) txs = true <-> exists m, res = inr m).
Proof.
  revert acc. induction txs as [|a txs IH]; intros acc; cbn [for_each forallb].
  - eexists. split; [reflexivity|]. split; eauto.
  - rewrite bind_run.
    destruct (count_row_returns acc a w) as (res & Hres & Hok). rewrite Hres.
    destruct res as [e|acc1].
    + eexists. split; [reflexivity|]. split.
      * intros H. apply andb_true_iff in H as [Ha _].
        apply Hok in Ha as [m' Hm']. discriminate.
      * intros [m H]. discriminate.
    + destruct (IH acc1) as (res' & Hres' & Hok'). exists res'.
      split; [exact Hres'|]. rewrite andb_true_iff, <- Hok'.
      split; [tauto|]. intros H. split; [|exact H]. apply Hok. eauto.
Qed.

(** X10 - [group_transactions_by_category] returns a model exactly when
    every listed row has a [category] field and every row with a category
    has a [description] field, description and category being hashable;
    whether it returns or fails, the store and the file are unchanged. *)
Theorem group_returns_iff (txs : list addr) (w : world) :
  exists res,
    group_transactions_by_category txs w = (res, w) /\
    (forallb (countable_at w) txs = true <-> exists m, res = inr m).
Proof. apply group_loop_returns. Qed.

(** ** The shape of a model built from rows *)

(** The keys of a map built by [vset] can be hashed and no two are equal. *)
Fixpoint keys_distinct {A} (m : vmap A) : Prop :=
  match m with
  | [] => True
  | (k, _) :: m' =>
      hashable k = true /\
      (forall k' x', In (k', x') m' -> py_eq k' k = false) /\
      keys_distinct m'
  end.

Lemma vset_In_key {A} (k k0 : value) (x x0 : A) (m : vmap A) :
  In (k0, x0) (vset k x m) ->
  (x0 = x /\ (k0 = k \/ exists x', In (k0, x') m)) \/ In (k0, x0) m.
Proof.
  induction m as [|[k' x'] m IH]; simpl.
  - intros [[= <- <-]|[]]. left. auto.
  - destruct (py_eq k k'); simpl.
    + intros [[= <- <-]|H]; [|auto]. left. split; [reflexivity|]. right. eauto.
    + intros [H|H]; [auto|].
      destruct (IH H) as [[-> [->|(x'' & Hx)]]|Hin]; [left|left|right]; eauto.
Qed.

Lemma vset_nonempty {A} (k : value) (x : A) (m : vmap A) : vset k x m <> [].
Proof. destruct m as [|[k' x'] m]; simpl; [|destruct (py_eq k k')]; discriminate. Qed.

Lemma vset_keys_distinct {A} (k : value) (x : A) (m : vmap A) :
  hashable k = true -> keys_distinct m -> keys_distinct (vset k x m).
Proof.
  intros Hk. induction m as [|[k0 x0] m IH]; simpl.
  - intros _. split; [assumption|]. split; [intros ? ? []|exact I].
  - intros (Hk0 & Hfresh & Hm). destruct (py_eq k k0) eqn:E; simpl.
    + auto.
    + split; [assumption|]. split; [|auto].
      intros k' x' Hin.
      apply vset_In_key in Hin as [[_ [->|(x'' & Hx)]]|Hin]; eauto.
Qed.

Lemma vlookup_In_distinct {A} (k : value) (x : A) (m : vmap A) :
  keys_distinct m -> In (k, x) m -> vlookup k m = Some x.
Proof.
  induction m as [|[k0 x0] m IH]; simpl; [tauto|].
  intros (Hk0 & Hfresh & Hm) [[= -> ->]|Hin].
  - now rewrite py_eq_refl.
  - rewrite (Hfresh _ _ Hin). auto.
Qed.

(** A counter of the model: distinct hashable keys, each a category (not
    empty) counted at least once. *)
Definition counter_ok (cnt : counter) : Prop :=
  keys_distinct cnt /\
  forall c n, In (c, n) cnt -> truthy c = true /\ (1 <= n)%Z.

Definition model_ok (m : category_model) : Prop :=
  forall d cnt, In (d, cnt) m -> cnt <> [] /\ counter_ok cnt.

Lemma counter_ok_lookup (m : category_model) (d : value) :
  model_ok m -> counter_ok (default [] (vlookup d m)).
Proof.
  intros Hm. destruct (vlookup d m) as [cnt|] eqn:E; cbn.
  - apply vlookup_In in E as (k & Hk). apply (Hm k cnt Hk).
  - split; [exact I | intros ? ? []].
Qed.

Lemma count_up_ok (m : category_model) (d c : value) :
  hashable c = true -> truthy c = true -> model_ok m ->
  model_ok (vset d (vset c (model_count m d c + 1) (default [] (vlookup d m))) m).
Proof.
  intros Hc Ht Hm d' cnt' Hin.
  apply vset_In in Hin as [->|Hin]; [|exact (Hm d' cnt' Hin)].
  split; [apply vset_nonempty|].
  destruct (counter_ok_lookup m d Hm) as [Hkeys Hentries]. split.
  - now apply vset_keys_distinct.
  - assert (Hn : (0 <= model_count m d c)%Z).
    { unfold model_count.
      destruct (vlookup c (default [] (vlookup d m))) as [n|] eqn:E; cbn; [|lia].
      apply vlookup_In in E as (k & Hk). destruct (Hentries k n Hk). lia. }
    intros c' n' Hin'.
    apply vset_In_key in Hin' as [[-> [->|(x' & Hx)]]|Hin'].
    + split; [assumption | lia].
    + split; [apply (Hentries c' x' Hx) | lia].
    + exact (Hentries c' n' Hin').
Qed.

Lemma count_row_ok (m m' : category_model) (a : addr) (w w' : world) :
  count_row m a w = (inr m', w') -> model_ok m -> model_ok m'.
Proof.
  unfold count_row. rewrite bind_run. unfold deref at 1.
  destruct (objects w !! a) as [r|]; [|discriminate].
  rewrite bind_run. unfold getitem at 1.
  destruct (lookup_key "category" r) as [c0|]; [|discriminate].
  cbn [ret]. destruct (truthy c0) eqn:Ht.
  - rewrite bind_run. unfold getitem.
    destruct (lookup_key "description" r) as [d0|]; [|discriminate].
    cbn [ret]. unfold count_up. rewrite !bind_run. unfold hash_check.
    destruct (hashable d0); [|discriminate]. cbn [ret].
    rewrite bind_run. destruct (hashable c0) eqn:Hc; [|discriminate]. cbn [ret].
    intros [= <- <-] Hm. now apply count_up_ok.
  - now intros [= <- <-].
Qed.

Lemma group_loop_ok (txs : list addr) (acc m : category_model) (w w' : world) :
  for_each count_row txs acc w = (inr m, w') -> model_ok acc -> model_ok m.
Proof.
  revert acc w. induction txs as [|a txs IH]; intros acc w; cbn [for_each].
  - now intros [= <- <-].
  - rewrite bind_run.
    destruct (count_row acc a w) as [[e|acc1] w1] eqn:Hstep; [discriminate|].
    intros Hrest Hacc. eapply IH; [exact Hrest|].
    eapply count_row_ok; eassumption.
Qed.

Lemma group_model_ok (txs : list addr) (m : category_model) (w w' : world) :
  group_transactions_by_category txs w = (inr m, w') -> model_ok m.
Proof. intros H. eapply group_loop_ok; [exact H|]. intros ? ? []. Qed.

(** ** X11: the inferred category and the ledger *)

(** X11 - With the model built from a list of rows, the category inferred
    for a description is [None] when no listed row with a category has
    that description; otherwise it is a non-empty category that at least one
    such row has, and no category is that of more of those rows. *)
Theorem inferred_category_most_frequent (txs : list addr) (m : category_model)
    (w w' w0 : world) (d : value) :
  group_transactions_by_category txs w = (inr m, w') ->
  hashable d = true ->
  exists c,
    inferred_category m d w0 = (inr c, w0) /\
    ((forall c', tally w d c' txs = 0) -> c = VNone) /\
    ((exists c', tally w d c' txs <> 0) ->
       truthy c = true /\ (1 <= tally w d c txs)%Z /\
       forall c', (tally w d c' txs <= tally w d c txs)%Z).
Proof.
  intros Hgroup Hd.
  pose proof (group_model_ok _ _ _ _ Hgroup) as Hok.
  apply group_loop_counts in Hgroup as [-> Hcount].
  assert (Htally : forall c, tally w d c txs = model_count m d c)
    by (intros c; rewrite Hcount; reflexivity).
  exists (top_category m d).
  rewrite inferred_category_run, Hd. split; [reflexivity|].
  unfold top_category.
  destruct (vlookup d m) as [cnt|] eqn:Hlook.
  - apply vlookup_In in Hlook as Hin. destruct Hin as (k & Hk).
    destruct (Hok k cnt Hk) as [Hne [Hkeys Hentries]].
    destruct cnt as [|x cnt]; [congruence|].
    destruct (most_common_head (x :: cnt)) as (c & n & rest & -> & Hin & Hmax);
      [discriminate|].
    destruct (Hentries c n Hin) as [Htruthy Hn].
    assert (Hc : tally w d c txs = n).
    { rewrite Htally. unfold model_count. rewrite Hlook. cbn [from_option].
      unfold id. now rewrite (vlookup_In_distinct c n _ Hkeys Hin). }
    split.
    + intros Hzero. specialize (Hzero c). lia.
    + intros _. split; [assumption|]. split; [lia|].
      intros c'. rewrite Hc, Htally. unfold model_count. rewrite Hlook.
      cbn [from_option]. unfold id.
      destruct (vlookup c' (x :: cnt)) as [n'|] eqn:E; cbn [from_option]; [|lia].
      apply vlookup_In in E as (k' & Hk'). exact (Hmax k' n' Hk').
  - split; [reflexivity|].
    intros (c' & Hc'). exfalso. apply Hc'.
    rewrite Htally. unfold model_count. now rewrite Hlook.
Qed.

(** ** X12: ties in most_common *)

Lemma most_common_snoc (c : counter) (x : value * Z) :
  most_common (c ++ [x]) = insert_by_count x (most_common c).
Proof. unfold most_common. now rewrite fold_left_app. Qed.

(** X12 - The first entry of [most_common()] is the first, in insertion
    order, of the entries with the greatest count: every entry before it in
    the counter counts less, none after it counts more. *)
Theorem most_common_first_of_greatest (c : counter) (k : value) (n : Z)
    (rest : list (value * Z)) :
  most_common c = (k, n) :: rest ->
  exists pre post,
    c = pre ++ (k, n) :: post /\
    (forall e, In e pre -> (snd e < n)%Z) /\
    (forall e, In e post -> (snd e <= n)%Z).
Proof.
  revert k n rest. induction c as [|x c IH] using rev_ind; intros k n rest.
  - discriminate.
  - rewrite most_common_snoc.
    destruct (most_common c) as [|[k0 n0] l] eqn:E.
    + destruct c as [|y c].
      * cbn. intros [= -> <-]. exists [], []. repeat split; intros ? [].
      * destruct (most_common_head (y :: c)) as (? & ? & ? & H & _);
          [discriminate | congruence].
    + destruct (IH k0 n0 l eq_refl) as (pre & post & -> & Hpre & Hpost).
      cbn [insert_by_count snd]. destruct (n0 <? snd x)%Z eqn:Hlt.
      * apply Z.ltb_lt in Hlt. intros [= -> <-]. cbn [snd] in Hlt.
        exists (pre ++ (k0, n0) :: post), [].
        split; [reflexivity|]. split; [|intros ? []].
        intros e He. apply in_app_or in He as [He|[<-|He]].
        -- specialize (Hpre e He). lia.
        -- cbn. lia.
        -- specialize (Hpost e He). lia.
      * apply Z.ltb_ge in Hlt. intros [= <- <- <-].
        exists pre, (post ++ [x]). rewrite <- app_assoc. split; [reflexivity|].
        split; [exact Hpre|].
        intros e He. apply in_app_or in He as [He|[<-|[]]]; auto.
Qed.

(** ** X13: when the inference returns *)

Definition readable_b (r : dict) : bool :=
  truthy (get r "category") ||
  match lookup_key "description" r with
  | Some d => hashable d
  | None => false
  end.

Definition readable_at (w : world) (a : addr) : bool :=
  match objects w !! a with
  | Some r => readable_b r
  | None => false
  end.

Lemma readable_b_iff (r : dict) : readable_b r = true <-> readable r.
Proof.
  unfold readable_b, readable. destruct (truthy (get r "category")); cbn [orb].
  - split; [discriminate | reflexivity].
  - destruct (lookup_key "description" r) as [d|].
    + split; [eauto|]. intros H. now destruct (H eq_refl) as (d' & [= <-] & Hh).
    + split; [discriminate|]. intros H. now destruct (H eq_refl) as (d' & [=] & _).
Qed.

Lemma apply_one_readable (category_data : category_model) (a : addr)
    (w w1 : world) (u : unit) :
  apply_one category_data a w = (inr u, w1) -> readable_at w a = true.
Proof.
  rewrite apply_one_run. unfold readable_at, readable_b.
  destruct (objects w !! a) as [r|]; [|discriminate].
  destruct (truthy (get r "category")); [reflexivity|].
  destruct (lookup_key "description" r) as [d|]; [|discriminate].
  now destruct (hashable d).
Qed.

Lemma apply_loop_readable (category_data : category_model) (txs : list addr)
    (w w' : world) (u : unit) :
  apply_loop category_data txs w = (inr u, w') ->
  forallb (readable_at w) txs = true.
Proof.
  revert w. induction txs as [|a0 txs IH]; intros w; [reflexivity|].
  rewrite apply_loop_cons.
  destruct (apply_one category_data a0 w) as [[e|u1] w1] eqn:Hstep; [discriminate|].
  intros Hrest. pose proof (apply_one_readable _ _ _ _ _ Hstep) as H0.
  cbn [forallb]. rewrite H0. cbn [andb].
  specialize (IH _ Hrest). rewrite forallb_forall in IH |- *.
  intros a Ha. destruct (Nat.eq_dec a a0) as [->|Hne]; [assumption|].
  specialize (IH a Ha).
  apply apply_one_inv in Hstep as (r0 & _ & Hobj & _).
  unfold readable_at in *. rewrite Hobj, list_lookup_insert_ne in IH; auto.
Qed.

(** X13 - [apply_transaction_categories] returns (the list it was given)
    exactly when every listed row either has a category or has a
    [description] field whose value can be hashed. *)
Theorem apply_transaction_categories_returns_iff (txs : list addr)
    (category_data : category_model) (w : world) :
  (exists w', apply_transaction_categories txs category_data w = (inr txs, w'))
  <-> forallb (readable_at w) txs = true.
Proof.
  rewrite apply_transaction_categories_run. split.
  - intros (w' & H).
    destruct (apply_loop category_data txs w) as [[e|u] w1] eqn:Hloop;
      [discriminate|].
    eapply apply_loop_readable, Hloop.
  - intros H.
    destruct (apply_loop_total category_data txs w) as (w' & Hw').
    + intros a Ha. rewrite forallb_forall in H. specialize (H a Ha).
      unfold readable_at in H. destruct (objects w !! a) as [r|]; [|discriminate].
      exists r. split; [reflexivity|]. now apply readable_b_iff.
    + exists w'. now rewrite Hw'.
Qed.

(** ** X14: inferring twice *)

Lemma apply_loop_length (category_data : category_model) (txs : list addr)
    (w w' : world) (u : unit) :
  apply_loop category_data txs w = (inr u, w') ->
  length (objects w') = length (objects w).
Proof.
  revert w. induction txs as [|a0 txs IH]; intros w.
  - unfold apply_loop. cbn [for_each ret]. now intros [= _ <-].
  - rewrite apply_loop_cons.
    destruct (apply_one category_data a0 w) as [[e|u1] w1] eqn:Hstep; [discriminate|].
    intros Hrest. rewrite (IH _ Hrest).
    apply apply_one_inv in Hstep as (r0 & _ & -> & _). apply length_insert.
Qed.

(** X14 - Inferring a second time changes nothing: after an inference that
    returned, the same inference over the same list returns again and
    leaves the store and the file exactly as the first left them. *)
Theorem apply_transaction_categories_twice (txs txs' : list addr)
    (category_data : category_model) (w w1 : world) :
  apply_transaction_categories txs category_data w = (inr txs', w1) ->
  apply_transaction_categories txs category_data w1 = (inr txs, w1).
Proof.
  rewrite !apply_transaction_categories_run.
  destruct (apply_loop category_data txs w) as [[e|u] w1'] eqn:Hloop; [discriminate|].
  intros [= _ <-].
  destruct (apply_loop_inv _ _ _ _ _ Hloop) as [Hcsv Hrows].
  pose proof (apply_loop_readable _ _ _ _ _ Hloop) as Hread.
  pose proof (apply_loop_length _ _ _ _ _ Hloop) as Hlen.
  assert (Hrow1 : forall a, In a txs ->
            exists r, objects w !! a = Some r /\ readable r /\
                      objects w1' !! a = Some (infer_row category_data r)).
  { intros a Ha. rewrite forallb_forall in Hread. specialize (Hread a Ha).
    unfold readable_at in Hread.
    destruct (objects w !! a) as [r|] eqn:Hr; [|discriminate].
    exists r. split; [reflexivity|]. split; [now apply readable_b_iff|].
    now apply (Hrows a r Hr). }
  destruct (apply_loop_total category_data txs w1') as (w2 & Hloop2).
  { intros a Ha. destruct (Hrow1 a Ha) as (r & _ & Hrd & Hr1).
    exists (infer_row category_data r). split; [assumption|].
    now apply infer_row_readable. }
  rewrite Hloop2. f_equal.
  destruct (apply_loop_inv _ _ _ _ _ Hloop2) as [Hcsv2 Hrows2].
  pose proof (apply_loop_length _ _ _ _ _ Hloop2) as Hlen2.
  destruct w2 as [objs2 csv2], w1' as [objs1 csv1]. cbn [objects csv_out] in *.
  f_equal; [|assumption].
  apply list_eq. intros i.
  destruct (objs1 !! i) as [r1|] eqn:Hr1.
  - destruct (in_dec Nat.eq_dec i txs) as [Hin|Hout].
    + destruct (Hrow1 i Hin) as (r & _ & _ & Hr1').
      assert (r1 = infer_row category_data r) as ->.
      { assert (H : Some r1 = Some (infer_row category_data r))
          by (etransitivity; [symmetry; exact Hr1 | exact Hr1']).
        now injection H. }
      pose proof (proj1 (Hrows2 i _ Hr1) Hin) as H2.
      rewrite infer_row_idem in H2. exact H2.
    + exact (proj2 (Hrows2 i _ Hr1) Hout).
  - apply lookup_ge_None in Hr1. apply lookup_ge_None. lia.
Qed.

(** ** Writing the records *)

(** Every field of the record is a column of the file. *)
Definition record_fits (cfg : config) (r : dict) : bool :=
  forallb (fun k => existsb (String.eqb k) (FIELDNAMES cfg)) (map fst r).

(** The line of the file for a record: one value per column, the empty
    string for a column the record has not. *)
Definition csv_record (cfg : config) (r : dict) : list value :=
  map (fun k => get_or r k (VStr "")) (FIELDNAMES cfg).

Definition fits_at (cfg : config) (objs : list dict) (a : addr) : bool :=
  match objs !! a with
  | Some r => record_fits cfg r
  | None => false
  end.

Definition record_at (cfg : config) (objs : list dict) (a : addr) : list value :=
  match objs !! a with
  | Some r => csv_record cfg r
  | None => []
  end.

(** The loop of [writerows]. *)
Definition write_rows (cfg : config) (transactions : list addr) (u : unit) : M unit :=
  for_each (fun _ a =>
    rowdict <- deref a ;;
    r <- dict_to_list (FIELDNAMES cfg) rowdict ;;
    write_record r) transactions u.

Lemma write_rows_cons (cfg : config) (a : addr) (txs : list addr) (u : unit)
    (objs : list dict) (c : list (list value)) :
  write_rows cfg (a :: txs) u (World objs c) =
  match objs !! a with
  | None => (inl SystemError, World objs c)
  | Some r =>
      if record_fits cfg r
      then write_rows cfg txs tt (World objs (c ++ [csv_record cfg r]))
      else (inl ValueError, World objs c)
  end.
Proof.
  unfold write_rows. cbn [for_each]. rewrite bind_run, bind_run.
  unfold deref. cbn [objects].
  destruct (objs !! a) as [r|]; [|reflexivity].
  rewrite bind_run. unfold dict_to_list, record_fits.
  destruct (forallb _ (map fst r)); reflexivity.
Qed.

Lemma write_rows_all (cfg : config) (txs : list addr) (u : unit)
    (objs : list dict) (c : list (list value)) :
  forallb (fits_at cfg objs) txs = true ->
  write_rows cfg txs u (World objs c)
  = (inr tt, World objs (c ++ map (record_at cfg objs) txs)).
Proof.
  revert u c. induction txs as [|a txs IH]; intros u c; cbn [forallb map].
  - intros _. destruct u. unfold write_rows. cbn [for_each ret].
    now rewrite app_nil_r.
  - intros H. apply andb_true_iff in H as [Ha Hrest].
    rewrite write_rows_cons. unfold fits_at, record_at in *.
    destruct (objs !! a) as [r|]; [|discriminate].
    rewrite Ha, (IH tt _ Hrest). now rewrite <- app_assoc.
Qed.

Lemma write_rows_app (cfg : config) (pre post : list addr) (u : unit) (w : world) :
  write_rows cfg (pre ++ post) u w =
  match write_rows cfg pre u w with
  | (inl e, w') => (inl e, w')
  | (inr u', w') => write_rows cfg post u' w'
  end.
Proof. unfold write_rows. apply for_each_app. Qed.

Lemma write_rows_stops (cfg : config) (pre post : list addr) (a : addr) (r : dict)
    (u : unit) (objs : list dict) (c : list (list value)) :
  forallb (fits_at cfg objs) pre = true ->
  objs !! a = Some r -> record_fits cfg r = false ->
  write_rows cfg (pre ++ a :: post) u (World objs c)
  = (inl ValueError, World objs (c ++ map (record_at cfg objs) pre)).
Proof.
  intros Hpre Hr Hfit.
  rewrite write_rows_app, (write_rows_all cfg pre u objs c Hpre), write_rows_cons.
  now rewrite Hr, Hfit.
Qed.

Lemma save_results_to_csv_writes (cfg : config) (transactions : list addr)
    (w : world) :
  first_record_fits cfg w transactions = true ->
  save_results_to_csv cfg transactions w
  = write_rows cfg transactions tt
      (World (objects w) [map VStr (FIELDNAMES cfg)]).
Proof.
  rewrite save_results_to_csv_run. unfold first_record_fits.
  destruct transactions as [|a rest]; [discriminate|].
  destruct (objects w !! a) as [first|]; [|discriminate].
  intros ->. reflexivity.
Qed.

(** ** X15: the file after a save that returns *)

(** X15 - When the first record has as many fields as there are columns
    and every field of every record is a column, [save_results_to_csv]
    returns and the file holds the header and then one line per listed
    record, in the order of the list, each with the record's values in the
    order of the columns; what the file held before is gone and the store is
    unchanged. *)
Theorem save_results_to_csv_file (cfg : config) (transactions : list addr)
    (w : world) :
  first_record_fits cfg w transactions = true ->
  forallb (fits_at cfg (objects w)) transactions = true ->
  save_results_to_csv cfg transactions w
  = (inr tt, World (objects w)
               (map VStr (FIELDNAMES cfg)
                :: map (record_at cfg (objects w)) transactions)).
Proof.
  intros Hfirst Hall. rewrite (save_results_to_csv_writes _ _ _ Hfirst).
  rewrite write_rows_all; [reflexivity | exact Hall].
Qed.

(** ** X16: a record with a field that is no column *)

(** X16 - When the first record has the right number of fields and a
    record of the list has a field that is not a column, all the records
    before it being fine, [save_results_to_csv] raises [ValueError] after it
    has replaced the file by the header and the lines of the records before
    that one. *)
Theorem save_results_to_csv_partial (cfg : config) (pre post : list addr)
    (a : addr) (r : dict) (w : world) :
  first_record_fits cfg w (pre ++ a :: post) = true ->
  forallb (fits_at cfg (objects w)) pre = true ->
  objects w !! a = Some r -> record_fits cfg r = false ->
  save_results_to_csv cfg (pre ++ a :: post) w
  = (inl ValueError,
     World (objects w)
           (map VStr (FIELDNAMES cfg) :: map (record_at cfg (objects w)) pre)).
Proof.
  intros Hfirst Hpre Hr Hfit. rewrite (save_results_to_csv_writes _ _ _ Hfirst).
  rewrite (write_rows_stops cfg pre post a r); [reflexivity|exact Hpre|exact Hr|exact Hfit].
Qed.

(** ** The order of dates *)

Lemma lex_compare_antisym (a b : list Z) :
  lex_compare b a = CompOpp (lex_compare a b).
Proof.
  revert b. induction a as [|x a IH]; intros [|y b]; cbn; try reflexivity.
  rewrite (Z.compare_antisym x y).
  destruct (x ?= y)%Z; cbn; auto.
Qed.

Lemma lex_compare_lt_trans (a b c : list Z) :
  lex_compare a b = Lt -> lex_compare b c = Lt -> lex_compare a c = Lt.
Proof.
  revert b c. induction a as [|x a IH]; intros [|y b] [|z c]; cbn;
    try congruence.
  destruct (Z.compare_spec x y) as [->|Hxy|Hxy]; try discriminate.
  - destruct (Z.compare_spec y z) as [->|Hyz|Hyz]; try discriminate.
    + apply IH.
    + reflexivity.
  - intros _. destruct (Z.compare_spec y z) as [->|Hyz|Hyz]; try discriminate.
    + intros _. now rewrite (proj2 (Z.compare_lt_iff x z) Hxy).
    + intros _. now rewrite (proj2 (Z.compare_lt_iff x z)) by lia.
Qed.

(** [d] is not later than [e]. *)
Definition not_later (d e : datetime) : Prop := datetime_compare d e <> Gt.

Lemma not_later_refl (d : datetime) : not_later d d.
Proof.
  unfold not_later, datetime_compare.
  now rewrite (proj2 (lex_compare_eq _ _) eq_refl).
Qed.

(** Whatever is not later than [e] is not later than a date after [e]. *)
Lemma not_later_step (d e f : datetime) :
  not_later d e -> datetime_compare f e = Gt -> not_later d f.
Proof.
  unfold not_later, datetime_compare. intros Hde Hfe.
  assert (Hef : lex_compare (datetime_fields e) (datetime_fields f) = Lt)
    by (rewrite (lex_compare_antisym (datetime_fields f) (datetime_fields e)), Hfe;
        reflexivity).
  destruct (lex_compare (datetime_fields d) (datetime_fields e)) eqn:E1.
  - apply lex_compare_eq in E1. rewrite E1, Hef. discriminate.
  - rewrite (lex_compare_lt_trans _ _ _ E1 Hef). discriminate.
  - congruence.
Qed.

(** ** X17: the start date is the latest date of the ledger *)

(** The date of the row behind [a], when it is a date. *)
Definition date_at (w : world) (a : addr) : option datetime :=
  match objects w !! a with
  | Some r =>
      match lookup_key "date" r with
      | Some (VDate d) => Some d
      | _ => None
      end
  | None => None
  end.

Definition later (d e : datetime) : bool :=
  match datetime_compare d e with Gt => true | _ => false end.

Lemma date_at_row (w : world) (a : addr) (d : datetime) :
  date_at w a = Some d ->
  exists r, objects w !! a = Some r /\ lookup_key "date" r = Some (VDate d).
Proof.
  unfold date_at. destruct (objects w !! a) as [r|]; [|discriminate].
  destruct (lookup_key "date" r) as [[]|] eqn:Hk; try discriminate.
  intros [= ->]. exists r. split; [reflexivity | exact Hk].
Qed.

Lemma max_step_dates (w : world) (b a : addr) (db d : datetime) :
  date_at w a = Some d ->
  max_step (b, VDate db) a w
  = (inr (if later d db then (a, VDate d) else (b, VDate db)), w).
Proof.
  intros Hd. apply date_at_row in Hd as (r & Hr & Hk).
  unfold max_step. rewrite bind_run. unfold deref. rewrite Hr.
  rewrite bind_run. unfold getitem. rewrite Hk. reflexivity.
Qed.

Lemma max_loop_dates (w : world) (rest processed : list addr) (b : addr)
    (db : datetime) :
  (forall a, In a rest -> exists d, date_at w a = Some d) ->
  date_at w b = Some db ->
  (forall a d, In a processed -> date_at w a = Some d -> not_later d db) ->
  exists b' db',
    for_each max_step rest (b, VDate db) w = (inr (b', VDate db'), w) /\
    (b' = b \/ In b' rest) /\ date_at w b' = Some db' /\
    forall a d, In a (processed ++ rest) -> date_at w a = Some d -> not_later d db'.
Proof.
  revert processed b db.
  induction rest as [|a rest IH]; intros processed b db Hrest Hb Hmax.
  - exists b, db. cbn [for_each ret]. rewrite app_nil_r. auto.
  - destruct (Hrest a (or_introl eq_refl)) as (d & Hd).
    cbn [for_each]. rewrite bind_run, (max_step_dates w b a db d Hd).
    assert (Hrest' : forall a', In a' rest -> exists d', date_at w a' = Some d')
      by (intros a' Ha'; apply Hrest; now right).
    destruct (later d db) eqn:Hlater.
    + assert (Hgt : datetime_compare d db = Gt)
        by (unfold later in Hlater; now destruct (datetime_compare d db)).
      destruct (IH (processed ++ [a]) a d Hrest' Hd) as (b' & db' & Hrun & Hin & Hb' & Hall).
      { intros a' d' Ha' Hd'. apply in_app_or in Ha' as [Ha'|[<-|[]]].
        - eapply not_later_step; [eapply Hmax; eassumption | exact Hgt].
        - assert (d' = d) as -> by congruence. apply not_later_refl. }
      exists b', db'. split; [exact Hrun|]. split; [|split; [exact Hb'|]].
      * destruct Hin as [->|Hin]; right; [now left | now right].
      * intros a' d' Ha'. apply Hall. rewrite <- app_assoc. exact Ha'.
    + destruct (IH (processed ++ [a]) b db Hrest' Hb) as (b' & db' & Hrun & Hin & Hb' & Hall).
      { intros a' d' Ha' Hd'. apply in_app_or in Ha' as [Ha'|[<-|[]]].
        - eapply Hmax; eassumption.
        - assert (d' = d) as -> by congruence.
          unfold not_later, later in *. now destruct (datetime_compare d db). }
      exists b', db'. split; [exact Hrun|]. split; [|split; [exact Hb'|]].
      * destruct Hin as [->|Hin]; [now left | right; now right].
      * intros a' d' Ha'. apply Hall. rewrite <- app_assoc. exact Ha'.
Qed.

(** [d.strftime("%Y-%m-%d")] as a string *)
Definition ymd (d : datetime) : string :=
  String.concat "-" [pad 4 (year d); pad 2 (month d); pad 2 (day d)].

(** X17 - On a ledger that is not empty and whose rows all have a date in
    their [date] field, the driver's start date is computed without error
    and without effect, and it is the [%Y-%m-%d] form of the date of a
    ledger row than which no ledger row has a later date. *)
Theorem start_date_latest (existing : list addr) (w : world) :
  existing <> [] ->
  (forall a, In a existing -> exists d, date_at w a = Some d) ->
  exists a d,
    In a existing /\ date_at w a = Some d /\
    start_date existing w = (inr (ymd d), w) /\
    forall a' d', In a' existing -> date_at w a' = Some d' -> not_later d' d.
Proof.
  intros Hne Hdates. destruct existing as [|a0 rest]; [congruence|].
  destruct (Hdates a0 (or_introl eq_refl)) as (d0 & Hd0).
  destruct (max_loop_dates w rest [a0] a0 d0) as (b & db & Hrun & Hin & Hb & Hall).
  - intros a Ha. apply Hdates. now right.
  - exact Hd0.
  - intros a d [<-|[]] Hd. assert (d = d0) as -> by congruence. apply not_later_refl.
  - exists b, db. split; [destruct Hin as [->|Hin]; [now left | now right]|].
    split; [exact Hb|]. split; [|exact Hall].
    apply date_at_row in Hd0 as (r0 & Hr0 & Hk0).
    apply date_at_row in Hb as (rb & Hrb & Hkb).
    unfold start_date, max_by_date. rewrite !bind_run. unfold deref at 1.
    rewrite Hr0. rewrite bind_run. unfold getitem at 1. rewrite Hk0. cbn [ret].
    rewrite bind_run, Hrun. cbn [ret fst]. rewrite bind_run. unfold deref.
    rewrite Hrb. rewrite bind_run. unfold getitem. rewrite Hkb. reflexivity.
Qed.

(** ** X18: what the driver asks the fetch adapter *)

(** X18 - On an empty ledger the driver fails with the [ValueError] of
    [max] before it fetches or writes anything.  On a ledger that is not
    empty and whose rows all have a date, the driver consults the fetch
    adapter at one start date only, the [%Y-%m-%d] form of the latest date
    of the ledger: it runs as with an adapter that answers every start date
    the way the given one answers that date. *)
Theorem main_fetch_window
    (query_plaid_transactions : string -> list dict * list dict)
    (cfg : config) (existing : list addr) (w : world) :
  (existing = [] ->
   main query_plaid_transactions cfg existing w = (inl ValueError, w)) /\
  (existing <> [] ->
   (forall a, In a existing -> exists d, date_at w a = Some d) ->
   exists a d,
     In a existing /\ date_at w a = Some d /\
     (forall a' d', In a' existing -> date_at w a' = Some d' -> not_later d' d) /\
     main query_plaid_transactions cfg existing w
     = main (fun _ => query_plaid_transactions (ymd d)) cfg existing w).
Proof.
  split; [intros ->; reflexivity|].
  intros Hne Hdates. destruct existing as [|a0 rest]; [congruence|].
  destruct (Hdates a0 (or_introl eq_refl)) as (d0 & Hd0).
  destruct (max_loop_dates w rest [a0] a0 d0) as (b & db & Hrun & Hin & Hb & Hall).
  { intros a Ha. apply Hdates. now right. }
  { exact Hd0. }
  { intros a d [<-|[]] Hd. assert (d = d0) as -> by congruence.
    apply not_later_refl. }
  exists b, db. split; [destruct Hin as [->|Hin]; [now left | now right]|].
  split; [exact Hb|]. split; [exact Hall|].
  assert (Hstart : start_date (a0 :: rest) w = (inr (ymd db), w)).
  { apply date_at_row in Hd0 as (r0 & Hr0 & Hk0).
    apply date_at_row in Hb as (rb & Hrb & Hkb).
    unfold start_date, max_by_date. rewrite !bind_run. unfold deref at 1.
    rewrite Hr0. rewrite bind_run. unfold getitem at 1. rewrite Hk0. cbn [ret].
    rewrite bind_run, Hrun. cbn [ret fst]. rewrite bind_run. unfold deref.
    rewrite Hrb. rewrite bind_run. unfold getitem. rewrite Hkb. reflexivity. }
  unfold main. rewrite !bind_run.
  destruct (group_loop_returns (a0 :: rest) [] w) as (res & Hres & _).
  unfold group_transactions_by_category. rewrite Hres.
  destruct res as [e|category_data]; [reflexivity|].
  rewrite !bind_run, Hstart. reflexivity.
Qed.

(** ** X19: the ledger rows after the merge and the inference *)

(** X19 - The merged list holds the ledger's own row objects, so the
    inference that follows the merge works on them too: a ledger row with a
    category is unchanged after both, and a ledger row without one has a
    description and gets, in place, the category the model counts most for
    it ([None] when the model has nothing), its other fields unchanged. *)
Theorem ledger_rows_after_inference (existing : list addr) (new : list dict)
    (account_data : vmap dict) (category_data : category_model)
    (merged merged' : list addr) (w w' w'' : world) (a : addr) (r : dict) :
  merge_transactions existing new account_data w = (inr merged, w') ->
  apply_transaction_categories merged category_data w' = (inr merged', w'') ->
  In a existing -> objects w !! a = Some r ->
  (truthy (get r "category") = true -> objects w'' !! a = Some r) /\
  (truthy (get r "category") = false ->
     exists d c,
       lookup_key "description" r = Some d /\
       objects w'' !! a = Some (setitem "category" c r) /\
       match vlookup d category_data with
       | Some (x :: cnt) =>
           exists n, In (c, n) (x :: cnt) /\
                     forall k' n', In (k', n') (x :: cnt) -> (n' <= n)%Z
       | _ => c = VNone
       end).
Proof.
  intros Hmerge Happly Ha Hr.
  apply merge_transactions_run in Hmerge as (ids & outs & Hi & Ho & -> & ->).
  rewrite apply_transaction_categories_run in Happly.
  destruct (apply_loop category_data _ _) as [[e|u] w2] eqn:Hloop; [discriminate|].
  injection Happly as _ <-.
  assert (Hr' : objects (World (objects w ++ omap id outs) (csv_out w)) !! a = Some r)
    by (cbn [objects]; now apply lookup_app_l_Some).
  assert (Hin : In a (existing ++ seq (length (objects w)) (length (omap id outs))))
    by (apply in_or_app; now left).
  destruct (apply_loop_inv _ _ _ _ _ Hloop) as [_ Hrows].
  pose proof (proj1 (Hrows a r Hr') Hin) as Hfinal.
  pose proof (apply_loop_readable _ _ _ _ _ Hloop) as Hread.
  rewrite forallb_forall in Hread. specialize (Hread a Hin).
  unfold readable_at in Hread. rewrite Hr' in Hread.
  apply readable_b_iff in Hread. split.
  - intros Hc. now rewrite infer_row_keeps in Hfinal.
  - intros Hc. destruct (Hread Hc) as (d & Hd & _).
    exists d, (top_category category_data d). split; [exact Hd|]. split.
    + unfold infer_row in Hfinal. now rewrite Hc, Hd in Hfinal.
    + unfold top_category.
      destruct (vlookup d category_data) as [[|x cnt]|]; try reflexivity.
      destruct (most_common_head (x :: cnt)) as (k & n & rest & -> & Hin' & Hmax);
        [discriminate|].
      exists n. auto.
Qed.

(** ** Worked examples for the further properties *)

Definition acct7550 : dict :=
  [("account_id", VStr "acc2"); ("mask", VStr "7550");
   ("type", VStr "depository"); ("subtype", VStr "checking")].

Definition accounts2 : vmap dict :=
  Eval vm_compute in
    match run (build_account_details cfg0 [acct1; acct7550]) [] with
    | (inr m, _) => m
    | (inl _, _) => []
    end.

Definition record7550 : dict :=
  Eval vm_compute in default [] (vlookup (VStr "acc2") accounts2).

Definition tx_excluded : dict := tx "tx_905" "acc2" "OFFICE SUPPLIES".

Definition tx_bad_category : dict :=
  [("transaction_id", VStr "tx_906"); ("account_id", VStr "acc1");
   ("name", VStr "ODD"); ("category", VList [VStr "Food"; VNum 3])].

Definition ids3 : list value := [VStr "tx_123"; VStr "tx_124"; VStr "tx_125"].

Lemma merge_transactions_excludes_7550_witness :
  hashable (get tx_excluded "transaction_id") = true /\
  hashable (get tx_excluded "account_id") = true /\
  vlookup (get tx_excluded "account_id") accounts2 = Some record7550 /\
  py_eq (get (update [] record7550) "bank_account_number") (VStr "7550") = true /\
  merge_transactions [0; 1; 2]%nat ([tx9] ++ tx_excluded :: [tx_again]) accounts2 w3 =
  merge_transactions [0; 1; 2]%nat ([tx9] ++ [tx_again]) accounts2 w3.
Proof.
  assert (H1 : hashable (get tx_excluded "transaction_id") = true) by reflexivity.
  assert (H2 : hashable (get tx_excluded "account_id") = true) by reflexivity.
  assert (H3 : vlookup (get tx_excluded "account_id") accounts2 = Some record7550)
    by reflexivity.
  assert (H4 : py_eq (get (update [] record7550) "bank_account_number")
                     (VStr "7550") = true) by reflexivity.
  exact (conj H1 (conj H2 (conj H3 (conj H4
           (merge_transactions_excludes_7550 [0; 1; 2]%nat [tx9] [tx_again]
              tx_excluded record7550 accounts2 w3 H1 H2 H3 H4))))).
Defined.

Lemma merge_transactions_malformed_fields_witness :
  get tx_bad_category "category" = VList [VStr "Food"; VNum 3] /\
  strings_of [VStr "Food"; VNum 3] = None /\
  exists w1,
    merge_transactions [0; 1; 2]%nat ([tx9] ++ tx_bad_category :: [])
                       accounts1 w3 = (inl TypeError, w1) /\
    length (objects w1) = 4%nat.
Proof.
  assert (H1 : transaction_ids [0; 1; 2]%nat w3 = (inr ids3, w3)) by reflexivity.
  assert (H3 : hashable (get tx_bad_category "transaction_id") = true) by reflexivity.
  assert (H4 : vmem (get tx_bad_category "transaction_id") ids3 = false) by reflexivity.
  assert (H5 : hashable (get tx_bad_category "account_id") = true) by reflexivity.
  assert (H6 : vlookup (get tx_bad_category "account_id") accounts1
               = Some (default [] (vlookup (VStr "acc1") accounts1))) by reflexivity.
  assert (H7 : py_eq (get (update [] (default [] (vlookup (VStr "acc1") accounts1)))
                          "bank_account_number") (VStr "7550") = false) by reflexivity.
  assert (Hc : get tx_bad_category "category" = VList [VStr "Food"; VNum 3])
    by reflexivity.
  assert (Hs : strings_of [VStr "Food"; VNum 3] = None) by reflexivity.
  split; [exact Hc|]. split; [exact Hs|].
  eexists. split.
  - refine (proj1 (merge_transactions_malformed_fields [0; 1; 2]%nat [tx9] []
                     tx_bad_category _ accounts1 w3 _ ids3 _ H1 _ H3 H4 H5 H6 H7)
                  _ Hc Hs).
    vm_compute. reflexivity.
  - reflexivity.
Defined.

(** A response with the id "acc2" twice and "acc1" once. *)
Definition response3 : list dict := [acct7550] ++ acct1 :: [acct7550].

Definition accounts3 : vmap dict := resolver_from cfg0 [] response3.

Lemma build_account_details_lookup_witness :
  build_account_details cfg0 ([acct7550] ++ acct1 :: [acct7550]) (World [] [])
    = (inr accounts3, World [] []) /\
  (forall account', In account' [acct7550] ->
     py_eq (VStr "acc1") (get account' "account_id") = false) /\
  py_eq (VStr "acc1") (get acct1 "account_id") = true /\
  vlookup (VStr "acc1") accounts3
    = Some [("bank_account_number", VStr "1234");
            ("account_name", VStr "Checking");
            ("institution_type", VStr "depository");
            ("account_type", VStr "depository");
            ("account_subtype", VStr "checking")].
Proof.
  assert (H1 : build_account_details cfg0 ([acct7550] ++ acct1 :: [acct7550])
                 (World [] []) = (inr accounts3, World [] [])) by reflexivity.
  assert (H2 : forall account', In account' [acct7550] ->
                 py_eq (VStr "acc1") (get account' "account_id") = false)
    by (intros account' [<-|[]]; reflexivity).
  assert (H3 : py_eq (VStr "acc1") (get acct1 "account_id") = true) by reflexivity.
  exact (conj H1 (conj H2 (conj H3
           (build_account_details_lookup cfg0 [acct7550] [acct7550] acct1
              accounts3 _ _ (VStr "acc1") H1 H2 H3)))).
Defined.

Lemma build_account_details_keys_witness :
  build_account_details cfg0 response3 (World [] []) = (inr accounts3, World [] []) /\
  (vlookup (VStr "ghost") accounts3 = None <->
   forall account, In account response3 ->
     py_eq (VStr "ghost") (get account "account_id") = false).
Proof.
  assert (H1 : build_account_details cfg0 response3 (World [] [])
               = (inr accounts3, World [] [])) by reflexivity.
  exact (conj H1 (proj1 (build_account_details_keys cfg0 response3 accounts3
                           _ _ (VStr "ghost") H1))).
Defined.

Lemma added_row_fields_witness :
  exists merged w',
    build_account_details cfg0 [acct1] (World [] []) = (inr accounts1, World [] []) /\
    merge_transactions [0; 1; 2]%nat [tx9; tx_again] accounts1 w3 = (inr merged, w') /\
    forall a, In a (added [0; 1; 2]%nat merged) ->
      exists t account pc,
        In t [tx9; tx_again] /\ In account [acct1] /\
        py_eq (get t "account_id") (get account "account_id") = true /\
        joined_category t = inr pc /\
        objects w' !! a = Some (merged_row cfg0 t account pc) /\
        lookup_key "category" (merged_row cfg0 t account pc) = None /\
        length (merged_row cfg0 t account pc) = 17%nat.
Proof.
  eexists _, _.
  assert (H1 : build_account_details cfg0 [acct1] (World [] [])
                 = (inr accounts1, World [] [])) by reflexivity.
  split; [exact H1|]. split; [vm_compute; reflexivity|].
  exact (added_row_fields cfg0 [acct1] accounts1 _ _
           [0; 1; 2]%nat [tx9; tx_again] _ w3 _ H1 eq_refl).
Defined.

Lemma added_row_after_inference_witness :
  exists merged w' w'',
    build_account_details cfg0 [acct1] (World [] []) = (inr accounts1, World [] []) /\
    merge_transactions [0; 1; 2]%nat [tx9] accounts1 w3 = (inr merged, w') /\
    apply_transaction_categories merged model3 w' = (inr merged, w'') /\
    forall a, In a (added [0; 1; 2]%nat merged) ->
      exists t account pc c,
        In t [tx9] /\ In account [acct1] /\
        objects w'' !! a
          = Some (merged_row cfg0 t account pc ++ [("category", c)]) /\
        match vlookup (get t "name") model3 with
        | Some (x :: cnt) =>
            exists n, In (c, n) (x :: cnt) /\
                      forall k' n', In (k', n') (x :: cnt) -> (n' <= n)%Z
        | _ => c = VNone
        end.
Proof.
  eexists _, _, _.
  assert (H1 : build_account_details cfg0 [acct1] (World [] [])
                 = (inr accounts1, World [] [])) by reflexivity.
  split; [exact H1|]. split; [vm_compute; reflexivity|].
  split; [vm_compute; reflexivity|].
  exact (added_row_after_inference cfg0 [acct1] accounts1 _ _
           [0; 1; 2]%nat [tx9] _ _ model3 w3 _ _ H1 eq_refl eq_refl).
Defined.

Lemma group_counts_rows_witness :
  group_transactions_by_category [0; 1; 2]%nat w3 = (inr model3, w3) /\
  forall d c,
    default 0 (vlookup c (default [] (vlookup d model3)))
    = tally w3 d c [0; 1; 2]%nat.
Proof.
  assert (H1 : group_transactions_by_category [0; 1; 2]%nat w3 = (inr model3, w3))
    by reflexivity.
  exact (conj H1 (proj2 (group_counts_rows [0; 1; 2]%nat model3 w3 w3 H1))).
Defined.

Lemma inferred_category_most_frequent_witness :
  group_transactions_by_category [0; 1; 2]%nat w3 = (inr model3, w3) /\
  hashable (VStr "COFFEE SHOP") = true /\
  exists c,
    inferred_category model3 (VStr "COFFEE SHOP") w3 = (inr c, w3) /\
    ((forall c', tally w3 (VStr "COFFEE SHOP") c' [0; 1; 2]%nat = 0) -> c = VNone) /\
    ((exists c', tally w3 (VStr "COFFEE SHOP") c' [0; 1; 2]%nat <> 0) ->
       truthy c = true /\
       (1 <= tally w3 (VStr "COFFEE SHOP") c [0; 1; 2]%nat)%Z /\
       forall c', (tally w3 (VStr "COFFEE SHOP") c' [0; 1; 2]%nat
                   <= tally w3 (VStr "COFFEE SHOP") c [0; 1; 2]%nat)%Z).
Proof.
  assert (H1 : group_transactions_by_category [0; 1; 2]%nat w3 = (inr model3, w3))
    by reflexivity.
  assert (H2 : hashable (VStr "COFFEE SHOP") = true) by reflexivity.
  exact (conj H1 (conj H2
           (inferred_category_most_frequent [0; 1; 2]%nat model3 w3 w3 w3
              (VStr "COFFEE SHOP") H1 H2))).
Defined.

(** A counter with a tie for the greatest count. *)
Definition tied : counter := [(VStr "A", 1); (VStr "B", 2); (VStr "C", 2)].

Lemma most_common_first_of_greatest_witness :
  most_common tied = [(VStr "B", 2); (VStr "C", 2); (VStr "A", 1)] /\
  exists pre post,
    tied = pre ++ (VStr "B", 2) :: post /\
    (forall e, In e pre -> (snd e < 2)%Z) /\
    (forall e, In e post -> (snd e <= 2)%Z).
Proof.
  assert (H1 : most_common tied = [(VStr "B", 2); (VStr "C", 2); (VStr "A", 1)])
    by reflexivity.
  exact (conj H1 (most_common_first_of_greatest tied (VStr "B") 2 _ H1)).
Defined.

Lemma apply_transaction_categories_twice_witness :
  exists w1,
    apply_transaction_categories [0; 1; 2; 3]%nat model3 w4
      = (inr [0; 1; 2; 3]%nat, w1) /\
    apply_transaction_categories [0; 1; 2; 3]%nat model3 w1
      = (inr [0; 1; 2; 3]%nat, w1).
Proof.
  eexists. split; [vm_compute; reflexivity|].
  exact (apply_transaction_categories_twice [0; 1; 2; 3]%nat _ model3 w4 _ eq_refl).
Defined.

Lemma save_results_to_csv_file_witness :
  first_record_fits cfg0 (World [r_ab; r_a] [[VStr "old"]]) [0; 1]%nat = true /\
  forallb (fits_at cfg0 [r_ab; r_a]) [0; 1]%nat = true /\
  save_results_to_csv cfg0 [0; 1]%nat (World [r_ab; r_a] [[VStr "old"]])
  = (inr tt, World [r_ab; r_a]
               (map VStr (FIELDNAMES cfg0)
                :: map (record_at cfg0 [r_ab; r_a]) [0; 1]%nat)).
Proof.
  assert (H1 : first_record_fits cfg0 (World [r_ab; r_a] [[VStr "old"]]) [0; 1]%nat
               = true) by reflexivity.
  assert (H2 : forallb (fits_at cfg0 [r_ab; r_a]) [0; 1]%nat = true) by reflexivity.
  exact (conj H1 (conj H2
           (save_results_to_csv_file cfg0 [0; 1]%nat
              (World [r_ab; r_a] [[VStr "old"]]) H1 H2))).
Defined.

Lemma save_results_to_csv_partial_witness :
  first_record_fits cfg0 (World [r_ab; r_abc] []) ([0%nat] ++ 1%nat :: [0%nat]) = true /\
  forallb (fits_at cfg0 [r_ab; r_abc]) [0%nat] = true /\
  record_fits cfg0 r_abc = false /\
  save_results_to_csv cfg0 ([0%nat] ++ 1%nat :: [0%nat]) (World [r_ab; r_abc] [])
  = (inl ValueError,
     World [r_ab; r_abc]
           (map VStr (FIELDNAMES cfg0) :: map (record_at cfg0 [r_ab; r_abc]) [0%nat])).
Proof.
  assert (H1 : first_record_fits cfg0 (World [r_ab; r_abc] [])
                 ([0%nat] ++ 1%nat :: [0%nat]) = true) by reflexivity.
  assert (H2 : forallb (fits_at cfg0 [r_ab; r_abc]) [0%nat] = true) by reflexivity.
  assert (H3 : record_fits cfg0 r_abc = false) by reflexivity.
  exact (conj H1 (conj H2 (conj H3
           (save_results_to_csv_partial cfg0 [0%nat] [0%nat] 1%nat r_abc
              (World [r_ab; r_abc] []) H1 H2 eq_refl H3)))).
Defined.

Lemma start_date_latest_witness :
  [0; 1; 2]%nat <> [] /\
  (forall a, In a [0; 1; 2]%nat ->
     exists d, date_at (World ledger_dates []) a = Some d) /\
  exists a d,
    In a [0; 1; 2]%nat /\ date_at (World ledger_dates []) a = Some d /\
    start_date [0; 1; 2]%nat (World ledger_dates [])
      = (inr (ymd d), World ledger_dates []).
Proof.
  assert (H1 : [0; 1; 2]%nat <> []) by discriminate.
  assert (H2 : forall a, In a [0; 1; 2]%nat ->
                 exists d, date_at (World ledger_dates []) a = Some d).
  { intros a [<-|[<-|[<-|[]]]]; eexists; reflexivity. }
  split; [exact H1|]. split; [exact H2|].
  destruct (start_date_latest [0; 1; 2]%nat (World ledger_dates []) H1 H2)
    as (a & d & Ha & Hd & Hrun & _).
  exists a, d. auto.
Defined.

(** A ledger with a fourth row that has no category. *)
Definition w5 : world := World (ledger3 ++ [coffee "" "tx_126"]) [].

Lemma ledger_rows_after_inference_witness :
  exists merged w' w'',
    merge_transactions [0; 1; 2; 3]%nat [tx9] accounts1 w5 = (inr merged, w') /\
    apply_transaction_categories merged model3 w' = (inr merged, w'') /\
    In 3%nat [0; 1; 2; 3]%nat /\
    objects w5 !! 3%nat = Some (coffee "" "tx_126") /\
    truthy (get (coffee "" "tx_126") "category") = false /\
    exists d c,
      lookup_key "description" (coffee "" "tx_126") = Some d /\
      objects w'' !! 3%nat = Some (setitem "category" c (coffee "" "tx_126")).
Proof.
  eexists _, _, _.
  split; [vm_compute; reflexivity|]. split; [vm_compute; reflexivity|].
  assert (H3 : In 3%nat [0; 1; 2; 3]%nat) by (simpl; auto).
  assert (H4 : objects w5 !! 3%nat = Some (coffee "" "tx_126")) by reflexivity.
  assert (H5 : truthy (get (coffee "" "tx_126") "category") = false) by reflexivity.
  split; [exact H3|]. split; [exact H4|]. split; [exact H5|].
  destruct (proj2 (ledger_rows_after_inference [0; 1; 2; 3]%nat [tx9] accounts1
                     model3 _ _ w5 _ _ 3%nat (coffee "" "tx_126")
                     eq_refl eq_refl H3 H4) H5) as (d & c & Hd & Hrow & _).
  exists d, c. auto.
Defined.

Lemma main_fetch_window_witness :
  [0; 1; 2]%nat <> [] /\
  (forall a, In a [0; 1; 2]%nat ->
     exists d, date_at (World ledger_dates []) a = Some d) /\
  forall (q : string -> list dict * list dict),
  exists d,
    main q cfg0 [0; 1; 2]%nat (World ledger_dates [])
    = main (fun _ => q (ymd d)) cfg0 [0; 1; 2]%nat (World ledger_dates []).
Proof.
  assert (H1 : [0; 1; 2]%nat <> []) by discriminate.
  assert (H2 : forall a, In a [0; 1; 2]%nat ->
                 exists d, date_at (World ledger_dates []) a = Some d).
  { intros a [<-|[<-|[<-|[]]]]; eexists; reflexivity. }
  split; [exact H1|]. split; [exact H2|].
  intros q.
  destruct (proj2 (main_fetch_window q cfg0 [0; 1; 2]%nat (World ledger_dates []))
              H1 H2) as (a & d & _ & _ & _ & Hmain).
  exists d. exact Hmain.
Defined.

(** ** C2: the merge appends to the ledger and leaves its rows alone *)

(** A fetched transaction the merge keeps: its identifier is not one of
    the ledger, its account is known to the resolver and is not the
    excluded one. *)
Definition accepts (ids : list value) (account_data : vmap dict) (t : dict) : bool :=
  negb (vmem (get t "transaction_id") ids) &&
  match vlookup (get t "account_id") account_data with
  | Some account =>
      negb (py_eq (get (update [] account) "bank_account_number") (VStr "7550"))
  | None => false
  end.

(** The row of a kept transaction: the fields of its account record, then
    the fields the merge sets, in the order it sets them. *)
Definition row_for (account_data : vmap dict) (t : dict) : dict :=
  match vlookup (get t "account_id") account_data, joined_category t with
  | Some account, inr plaid_category =>
      setitem "transaction_id" (get t "transaction_id")
       (setitem "pending" (get t "pending")
        (setitem "country" (location_of t "country" VNone)
         (setitem "zip" (location_of t "zip" VNone)
          (setitem "state" (location_of t "state" VNone)
           (setitem "city" (location_of t "city" VNone)
            (setitem "address" (location_of t "address" (VDict []))
             (setitem "transaction_type" (get t "transaction_type")
              (setitem "plaid_category" (VStr plaid_category)
               (setitem "amount" (get t "amount")
                (setitem "description" (get t "name")
                 (setitem "date" (get t "date") (update [] account))))))))))))
  | _, _ => []
  end.

Lemma outcome_accepts (ids : list value) (account_data : vmap dict) (t : dict)
    (o : option dict) :
  accepted_row ids account_data t = inr o ->
  o = if accepts ids account_data t then Some (row_for account_data t) else None.
Proof.
  rewrite accepted_row_eq. unfold accepts, row_for.
  destruct (hashable (get t "transaction_id")); [|discriminate].
  destruct (vmem (get t "transaction_id") ids); cbn [negb andb]; [congruence|].
  destruct (hashable (get t "account_id")); [|discriminate].
  destruct (vlookup (get t "account_id") account_data) as [account|]; [|discriminate].
  destruct (py_eq _ _); cbn [negb]; [congruence|].
  destruct (joined_category t) as [e|pc]; [discriminate|].
  destruct (location_ok t); [|discriminate].
  intros [= <-]. reflexivity.
Qed.

Lemma outcomes_accepted (ids : list value) (account_data : vmap dict)
    (new : list dict) (outs : list (option dict)) :
  Forall2 (outcome_of ids account_data) new outs ->
  omap id outs
  = map (row_for account_data) (List.filter (accepts ids account_data) new).
Proof.
  induction 1 as [|t o new outs Ho HF IH]; [reflexivity|].
  apply outcome_accepts in Ho. subst o. cbn [List.filter].
  destruct (accepts ids account_data t); cbn [omap list_omap id map].
  - now rewrite <- IH.
  - exact IH.
Qed.

(** C2 - A merge that returns gives the ledger's rows first, unchanged and
    in their order, then one new row for every fetched transaction whose
    identifier is not in the ledger and whose account is known and not the
    excluded one, in the order of the fetch, each holding the fields of its
    account record and the fields of the transaction; every object that was
    in the store before the merge is the same after it, and the output file
    is untouched. *)
Theorem merge_transactions_appends (existing : list addr) (new : list dict)
    (account_data : vmap dict) (merged : list addr) (w w' : world) :
  merge_transactions existing new account_data w = (inr merged, w') ->
  exists ids outs,
    Forall2 (id_at w) existing ids /\
    Forall2 (outcome_of ids account_data) new outs /\
    omap id outs
      = map (row_for account_data) (List.filter (accepts ids account_data) new) /\
    take (length existing) merged = existing /\
    added existing merged
      = seq (length (objects w))
            (length (List.filter (accepts ids account_data) new)) /\
    objects w'
      = objects w
        ++ map (row_for account_data) (List.filter (accepts ids account_data) new) /\
    csv_out w' = csv_out w /\
    (forall a r, objects w !! a = Some r -> objects w' !! a = Some r).
Proof.
  intros H. apply merge_transactions_run in H as (ids & outs & Hi & Ho & -> & ->).
  pose proof (outcomes_accepted _ _ _ _ Ho) as Hrows.
  exists ids, outs. repeat split; try assumption.
  - now rewrite take_app_length.
  - rewrite added_app, Hrows. now rewrite length_map.
  - cbn [objects]. now rewrite Hrows.
  - intros a r Hr. simpl. now apply lookup_app_l_Some.
Qed.

Lemma merge_transactions_appends_witness :
  exists merged w',
    merge_transactions [0; 1; 2]%nat [tx9; tx_again] accounts1 w3 = (inr merged, w') /\
    exists ids,
      Forall2 (id_at w3) [0; 1; 2]%nat ids /\
      List.filter (accepts ids accounts1) [tx9; tx_again] = [tx9] /\
      take 3 merged = [0; 1; 2]%nat /\
      added [0; 1; 2]%nat merged = [3%nat] /\
      objects w' = objects w3 ++ [row_for accounts1 tx9] /\
      lookup_key "description" (row_for accounts1 tx9) = Some (VStr "COFFEE SHOP") /\
      forall a r, objects w3 !! a = Some r -> objects w' !! a = Some r.
Proof.
  eexists _, _. split; [vm_compute; reflexivity|].
  destruct (merge_transactions_appends [0; 1; 2]%nat [tx9; tx_again] accounts1
              _ w3 _ eq_refl)
    as (ids & outs & Hi & _ & _ & Htake & Hadded & Hobjs & _ & Hframe).
  assert (Hids : ids = ids3).
  { assert (H1 : transaction_ids [0; 1; 2]%nat w3 = (inr ids, w3))
      by (apply transaction_ids_run; auto).
    assert (H2 : transaction_ids [0; 1; 2]%nat w3 = (inr ids3, w3)) by reflexivity.
    congruence. }
  subst ids. exists ids3.
  split; [exact Hi|]. split; [reflexivity|]. split; [exact Htake|].
  split; [exact Hadded|]. split; [exact Hobjs|]. split; [reflexivity | exact Hframe].
Defined.

(** ** C10: the two type fields of an added row *)

(** C10 - [build_account_details] gives every account record the
    account's one [type] value both as [institution_type] and as
    [account_type]; so, with the resolver it built, every row a merge adds
    has both fields, each holding the [type] of an account of the response
    with the transaction's account id, and the two are equal. *)
Theorem added_rows_institution_type (cfg : config) (accounts : list dict)
    (account_data : vmap dict) (w0 w1 : world)
    (existing : list addr) (new : list dict) (merged : list addr) (w w' : world) :
  build_account_details cfg accounts w0 = (inr account_data, w1) ->
  merge_transactions existing new account_data w = (inr merged, w') ->
  (forall k d, In (k, d) account_data ->
     exists account, In account accounts /\
       lookup_key "institution_type" d = Some (get account "type") /\
       lookup_key "account_type" d = Some (get account "type") /\
       get d "institution_type" = get account "type" /\
       get d "account_type" = get account "type") /\
  (forall a, In a (added existing merged) ->
     exists r t account,
       objects w' !! a = Some r /\
       In t new /\ In account accounts /\
       py_eq (get t "account_id") (get account "account_id") = true /\
       lookup_key "institution_type" r = Some (get account "type") /\
       lookup_key "account_type" r = Some (get account "type") /\
       get r "institution_type" = get r "account_type").
Proof.
  intros Hbuild Hmerge. split.
  - intros k d Hin.
    destruct (build_account_details_records _ _ _ _ _ Hbuild k d Hin)
      as (account & name & Ha & ->).
    exists account. repeat split; auto.
  - intros a Ha.
    destruct (added_rows_shape _ _ _ _ _ _ _ _ _ _ _ Hbuild Hmerge Ha)
      as (t & account & pc & Ht & Hacc & Hid & _ & Hrow).
    exists (merged_row cfg t account pc), t, account.
    repeat split; auto.
Qed.

Lemma added_rows_institution_type_witness :
  exists merged w',
    build_account_details cfg0 [acct1] (World [] []) = (inr accounts1, World [] []) /\
    merge_transactions [0; 1; 2]%nat [tx9; tx_again] accounts1 w3 = (inr merged, w') /\
    added [0; 1; 2]%nat merged = [3%nat] /\
    forall a, In a (added [0; 1; 2]%nat merged) ->
      exists r t account,
        objects w' !! a = Some r /\
        In t [tx9; tx_again] /\ In account [acct1] /\
        py_eq (get t "account_id") (get account "account_id") = true /\
        lookup_key "institution_type" r = Some (get account "type") /\
        lookup_key "account_type" r = Some (get account "type") /\
        get r "institution_type" = get r "account_type".
Proof.
  eexists _, _.
  assert (H1 : build_account_details cfg0 [acct1] (World [] [])
                 = (inr accounts1, World [] [])) by reflexivity.
  split; [exact H1|]. split; [vm_compute; reflexivity|].
  split; [reflexivity|].
  exact (proj2 (added_rows_institution_type cfg0 [acct1] accounts1 _ _
                  [0; 1; 2]%nat [tx9; tx_again] _ w3 _ H1 eq_refl)).
Defined.
